(** * S3DIS segmentation dataset: composition of per-area datasets

    A shallow embedding of [mmdet3d/datasets/s3dis_dataset.py].  The wrapper
    class [S3DISSegDataset] builds one inner [_S3DISSegDataset] per annotation
    file and concatenates their [data_infos], [scene_idxs] and [label_weight].

    Python exceptions are values of [exn] carried by the [result] monad,
    NumPy [int32] arrays are lists of [Z] with the cast written out, and
    [float32] values are IEEE binary32 numbers ([spec_float] at precision 24). *)

From Stdlib Require Import ZArith Lia String Ascii.
From Stdlib Require Import Floats.SpecFloat.
From stdpp Require Import prelude strings.

Local Open Scope Z_scope.

(** ** Exceptions and the result monad *)

Inductive exn : Type :=
  | ValueError
  | IndexError
  | TypeError
  | NotImplementedError
  | IOError (source : string).

Inductive result (A : Type) : Type :=
  | Ok (a : A)
  | Raise (e : exn).
Arguments Ok {A} a.
Arguments Raise {A} e.

#[global] Instance result_ret : MRet result := fun _ a => Ok a.
#[global] Instance result_bind : MBind result := fun _ _ f m =>
  match m with
  | Ok a => f a
  | Raise e => Raise e
  end.
#[global] Instance result_fmap : FMap result := fun _ _ f m =>
  match m with
  | Ok a => Ok (f a)
  | Raise e => Raise e
  end.

Definition is_Ok {A} (m : result A) : Prop := exists a, m = Ok a.
Definition raises {A} (m : result A) : Prop := exists e, m = Raise e.

(** ** NumPy integer arrays *)

Module Np.

(** [x.astype(np.int32)] on one element: the value modulo [2^32], read as a
    signed 32-bit integer. *)
Definition astype_int32 (z : Z) : Z := (z + 2 ^ 31) mod 2 ^ 32 - 2 ^ 31.

Definition in_int32 (z : Z) : Prop := - 2 ^ 31 <= z < 2 ^ 31.

(** [np.concatenate([a, b])] on one-dimensional arrays. *)
Definition concatenate (arrays : list (list Z)) : list Z := mjoin arrays.

(** [arr + offset], broadcasting the scalar. *)
Definition add_scalar (arr : list Z) (offset : Z) : list Z :=
  (fun v => v + offset) <$> arr.

(** [np.unique(arr)]: the sorted distinct values of the array. *)
Fixpoint insert_sorted (x : Z) (l : list Z) : list Z :=
  match l with
  | [] => [x]
  | y :: l' =>
      if x <? y then x :: y :: l'
      else if x =? y then y :: l'
      else y :: insert_sorted x l'
  end.

Definition unique (arr : list Z) : list Z := foldr insert_sorted [] arr.

(** [arr.max()]: a reduction without identity, it raises [ValueError] on a
    zero-size array. *)
Definition max (arr : list Z) : result Z :=
  match arr with
  | [] => Raise ValueError
  | x :: arr' => Ok (foldl Z.max x arr')
  end.

End Np.

(** ** Scene records *)

Record SceneRecord : Type := {
  pts_path : string;
  pts_semantic_mask_path : string;
}.

(** ** [S3DISSegDataset.concat_data_infos] *)

(** The comprehension
    [[info for one_data_infos in data_infos for info in one_data_infos]]. *)
Definition concat_data_infos (data_infos : list (list SceneRecord))
    : list SceneRecord :=
  one_data_infos ← data_infos; info ← one_data_infos; [info].

(** ** [S3DISSegDataset.concat_scene_idxs] *)

(** The body of the [for] loop, threading [self.scene_idxs] and [offset].
    The offset is the scalar [max() + 1] of an [int32] array; whether that
    scalar is itself held in 32 bits or not, the elements it is added to are
    the same after the cast of the array. *)
Fixpoint concat_scene_idxs_loop (scene_idxs : list (list Z))
    (self_scene_idxs : list Z) (offset : Z) : result (list Z) :=
  match scene_idxs with
  | [] => Ok self_scene_idxs
  | one_scene_idxs :: rest =>
      let self_scene_idxs' :=
        Np.astype_int32 <$>
          Np.concatenate [self_scene_idxs; Np.add_scalar one_scene_idxs offset] in
      m ← Np.max (Np.unique self_scene_idxs');
      concat_scene_idxs_loop rest self_scene_idxs' (Np.astype_int32 (m + 1))
  end.

Definition concat_scene_idxs (scene_idxs : list (list Z)) : result (list Z) :=
  concat_scene_idxs_loop scene_idxs [] 0.

(** ** The merge as the specification words it

    A left-to-right fold over the partitions carrying the merged index and
    the next offset, in unbounded integer arithmetic: the offset is added to
    every value of the partition, the result is appended, and the offset
    becomes one plus the maximum of the merged index.  The maximum of an
    empty index does not exist, so the fold is partial. *)

Definition list_maximum (l : list Z) : option Z :=
  match l with
  | [] => None
  | x :: l' => Some (foldr Z.max x l')
  end.

(** [m] is the greatest value of [l]. *)
Definition is_max (m : Z) (l : list Z) : Prop :=
  m ∈ l /\ Forall (fun x => x <= m) l.

Definition merge_step (st : option (list Z * Z)) (part : list Z)
    : option (list Z * Z) :=
  '(merged, offset) ← st;
  let merged' := merged ++ map (Z.add offset) part in
  m ← list_maximum merged';
  Some (merged', 1 + m).

Definition merged_index_fold (parts : list (list Z)) : option (list Z) :=
  fst <$> fold_left merge_step parts (Some ([], 0)).

(** The rule the specification contrasts it with: the offset advances by the
    scene count of the partition, whatever its sampling index refers to. *)
Fixpoint running_sum_merge (parts : list (nat * list Z)) (offset : Z)
    : list Z :=
  match parts with
  | [] => []
  | (scene_count, part) :: rest =>
      map (Z.add offset) part ++
      running_sum_merge rest (offset + Z.of_nat scene_count)
  end.

(** A sampling index is valid for a partition of [scene_count] scenes when
    every value is an offset into its scene records. *)
Definition valid_scene_idxs (scene_count : nat) (idxs : list Z) : Prop :=
  Forall (fun v => 0 <= v < Z.of_nat scene_count) idxs.

(** Start of partition [k]'s range in the merged scene-record list. *)
Definition range_start (counts : list nat) (k : nat) : nat :=
  sum_list (take k counts).

(** ** [float32] arithmetic *)

Module F32.
Definition prec : Z := 24.
Definition emax : Z := 128.
Definition add : spec_float -> spec_float -> spec_float := SFadd prec emax.
Definition div : spec_float -> spec_float -> spec_float := SFdiv prec emax.
Definition of_Z (z : Z) : spec_float := binary_normalize prec emax z 0 false.
Definition div_count (x : spec_float) (n : nat) : spec_float :=
  div x (of_Z (Z.of_nat n)).
Definition nan : spec_float := S754_nan.
End F32.

(** ** [S3DISSegDataset.concat_label_weight] *)

(** The value of [np.array(rows).mean(0)]: a vector, or a scalar when the
    array has a single axis. *)
Inductive ndarray (F : Type) : Type :=
  | Scalar (x : F)
  | Vector (xs : list F).
Arguments Scalar {F} x.
Arguments Vector {F} xs.

Section MeanAxis0.
Context {F : Type}.
Variable add : F -> F -> F.
Variable div_count : F -> nat -> F.
Variable astype_float32 : F -> F.
Variable nan : F.

(** [np.array(label_weights)] stacks the vectors as rows and needs them to
    have one length; [.mean(0)] adds the rows up, first to last, and divides
    every entry by the number of rows; the mean of an array without rows is
    the scalar [nan]. *)
Definition mean_axis0 (rows : list (list F)) : result (ndarray F) :=
  match rows with
  | [] => Ok (Scalar (astype_float32 nan))
  | row :: rows' =>
      if forallb (fun r => Nat.eqb (length r) (length row)) rows'
      then
        let total := foldl (zip_with add) row rows' in
        Ok (Vector ((fun s => astype_float32 (div_count s (length rows)))
                      <$> total))
      else Raise ValueError
  end.
End MeanAxis0.

(** On [float32] rows the sum and the quotient are [float32] operations and
    the final [astype(np.float32)] changes nothing. *)
Definition concat_label_weight (label_weights : list (list spec_float))
    : result (ndarray spec_float) :=
  mean_axis0 F32.add F32.div_count id F32.nan label_weights.

(** ** Python values of the configuration

    [scene_idxs] and [label_weights] arrive as [None], a [str] (the path of a
    precomputed array), a NumPy array, or a list or tuple of those.  The
    elements of an array are numbers or, for an array of more than one axis,
    arrays. *)

#[warnings="-register-all"]
Inductive pyval : Type :=
  | PyNone
  | PyStr (s : string)
  | PyInt (z : Z)
  | PyFloat (x : spec_float)
  | PyList (xs : list pyval)
  | PyTuple (xs : list pyval)
  | PyArray (xs : list pyval).

Definition is_None (x : pyval) : bool :=
  match x with PyNone => true | _ => false end.

(** [isinstance(x, str)] *)
Definition isinstance_str (x : pyval) : bool :=
  match x with PyStr _ => true | _ => false end.

(** [isinstance(x, (list, tuple))] *)
Definition isinstance_list_tuple (x : pyval) : bool :=
  match x with PyList _ | PyTuple _ => true | _ => false end.

(** [isinstance(x, (list, tuple, np.ndarray))] *)
Definition isinstance_list_tuple_ndarray (x : pyval) : bool :=
  match x with PyList _ | PyTuple _ | PyArray _ => true | _ => false end.

(** [x[i]] for a non-negative [i]: [IndexError] past the end of a sequence,
    [TypeError] on a value that cannot be subscripted. *)
Definition getitem (x : pyval) (i : nat) : result pyval :=
  match x with
  | PyList xs | PyTuple xs | PyArray xs =>
      match xs !! i with
      | Some y => Ok y
      | None => Raise IndexError
      end
  | PyStr s =>
      match String.get i s with
      | Some c => Ok (PyStr (String c EmptyString))
      | None => Raise IndexError
      end
  | PyNone | PyInt _ | PyFloat _ => Raise TypeError
  end.

(** [len(x)] *)
Definition len (x : pyval) : result nat :=
  match x with
  | PyList xs | PyTuple xs | PyArray xs => Ok (length xs)
  | PyStr s => Ok (String.length s)
  | PyNone | PyInt _ | PyFloat _ => Raise TypeError
  end.

(** ** Normalization of the per-partition inputs *)

(** [[x for _ in range(num)]] *)
Definition _duplicate_to_list (x : pyval) (num : nat) : pyval :=
  PyList ((fun _ => x) <$> seq 0 num).

Definition _check_ann_files (ann_file : pyval) : pyval :=
  if negb (isinstance_list_tuple ann_file)
  then _duplicate_to_list ann_file 1
  else ann_file.

Definition _check_scene_idxs (scene_idx : pyval) (num : nat) : result pyval :=
  if is_None scene_idx then Ok (_duplicate_to_list scene_idx num)
  else if isinstance_str scene_idx then Ok (_duplicate_to_list scene_idx num)
  else
    first ← getitem scene_idx 0;
    if isinstance_str first then Ok scene_idx
    else
      first ← getitem scene_idx 0;
      if isinstance_list_tuple_ndarray first then Ok scene_idx
      else Ok (_duplicate_to_list scene_idx num).

Definition _check_label_weights (label_weight : pyval) (num : nat)
    : result pyval :=
  if is_None label_weight then Ok (_duplicate_to_list label_weight num)
  else if isinstance_str label_weight
  then Ok (_duplicate_to_list label_weight num)
  else
    first ← getitem label_weight 0;
    if isinstance_str first then Ok label_weight
    else
      first ← getitem label_weight 0;
      if isinstance_list_tuple_ndarray first then Ok label_weight
      else Ok (_duplicate_to_list label_weight num).

(** ** Construction, counting the partition datasets built

    A computation of [Build A] threads the number of [_S3DISSegDataset]
    objects whose construction has been started and may raise. *)

Definition Build (A : Type) : Type := nat -> nat * result A.

#[global] Instance Build_ret : MRet Build := fun _ a built => (built, Ok a).
#[global] Instance Build_bind : MBind Build := fun _ _ f m built =>
  match m built with
  | (built', Ok a) => f a built'
  | (built', Raise e) => (built', Raise e)
  end.

Definition lift {A} (r : result A) : Build A := fun built => (built, r).

Definition started {A} (construct : result A) : Build A :=
  fun built => (S built, construct).

Record Partition : Type := {
  data_infos : list SceneRecord;
  scene_idxs : list Z;
  label_weight : list spec_float;
}.

(** Number of scenes of a partition dataset, [len(dst.data_infos)]. *)
Definition scene_count (dst : Partition) : nat := length (data_infos dst).

(** The sampling index of a partition refers to its last scene. *)
Definition reaches_last_scene (dst : Partition) : Prop :=
  (Z.of_nat (scene_count dst) - 1) ∈ scene_idxs dst.

(** The sampling index of a partition holds offsets into its own scenes. *)
Definition locally_valid (dst : Partition) : Prop :=
  valid_scene_idxs (scene_count dst) (scene_idxs dst).

(** [len(self.data_infos)] after the merge. *)
Definition merged_scene_count (datasets : list Partition) : nat :=
  length (concat_data_infos (data_infos <$> datasets)).

Record Composite : Type := {
  self_test_mode : bool;
  self_data_infos : list SceneRecord;
  self_scene_idxs : list Z;
  self_label_weight : ndarray spec_float;
}.

Record Config : Type := {
  cfg_ann_files : pyval;
  cfg_test_mode : bool;
  cfg_scene_idxs : pyval;
  cfg_label_weights : pyval;
}.

Section Datasets.

(** The collaborators outside this file: the reader of an annotation file,
    and the resolver of a sampling index and a label-weight vector that
    [Custom3DSegDataset] provides (it sees [self.test_mode] and
    [self.data_infos]). *)
Variable load_annotations : pyval -> result (list SceneRecord).
Variable super_get_scene_idxs_and_label_weight :
  bool -> list SceneRecord -> pyval -> pyval ->
  result (list Z * list spec_float).

(** [_S3DISSegDataset.get_scene_idxs_and_label_weight] *)
Definition get_scene_idxs_and_label_weight (test_mode : bool)
    (self_infos : list SceneRecord) (scene_idxs label_weight : pyval)
    : result (list Z * list spec_float) :=
  if negb test_mode && is_None scene_idxs
  then Raise NotImplementedError
  else super_get_scene_idxs_and_label_weight test_mode self_infos
         scene_idxs label_weight.

(** Modelled from the spec: the constructor of [Custom3DSegDataset]
    (custom_3d_seg.py), which [_S3DISSegDataset.__init__] only forwards to.
    A partition dataset reads the scene records of its annotation source and
    then resolves its sampling index and label weights, through the method
    above. *)
Definition _S3DISSegDataset_init (ann_file : pyval) (test_mode : bool)
    (scene_idxs label_weight : pyval) : result Partition :=
  infos ← load_annotations ann_file;
  '(idxs, weight) ← get_scene_idxs_and_label_weight test_mode infos
                       scene_idxs label_weight;
  Ok {| data_infos := infos; scene_idxs := idxs; label_weight := weight |}.

(** The comprehension building [datasets], for [i] over [range]. *)
Fixpoint build_datasets (ann_files scene_idxs label_weights : pyval)
    (test_mode : bool) (range : list nat) : Build (list Partition) :=
  match range with
  | [] => mret []
  | i :: range' =>
      ann_file ← lift (getitem ann_files i);
      one_scene_idxs ← lift (getitem scene_idxs i);
      one_label_weight ← lift (getitem label_weights i);
      dst ← started (_S3DISSegDataset_init ann_file test_mode
                       one_scene_idxs one_label_weight);
      datasets ← build_datasets ann_files scene_idxs label_weights
                   test_mode range';
      mret (dst :: datasets)
  end.

(** [S3DISSegDataset.__init__].  The group flag that [_set_group_flag] sets
    afterwards outside test mode is read by the sampler only and is left
    out. *)
Definition S3DISSegDataset_init (cfg : Config) : Build Composite :=
  let ann_files := _check_ann_files (cfg_ann_files cfg) in
  num ← lift (len ann_files);
  scene_idxs' ← lift (_check_scene_idxs (cfg_scene_idxs cfg) num);
  label_weights' ← lift (_check_label_weights (cfg_label_weights cfg) num);
  ann_file0 ← lift (getitem ann_files 0);
  scene_idxs0 ← lift (getitem scene_idxs' 0);
  label_weight0 ← lift (getitem label_weights' 0);
  _ ← lift (_S3DISSegDataset_init ann_file0 (cfg_test_mode cfg)
              scene_idxs0 label_weight0);
  datasets ← build_datasets ann_files scene_idxs' label_weights'
               (cfg_test_mode cfg) (seq 0 num);
  merged_idxs ← lift (concat_scene_idxs (scene_idxs <$> datasets));
  merged_weight ← lift (concat_label_weight (label_weight <$> datasets));
  mret {| self_test_mode := cfg_test_mode cfg;
          self_data_infos := concat_data_infos (data_infos <$> datasets);
          self_scene_idxs := merged_idxs;
          self_label_weight := merged_weight |}.

End Datasets.

(** Two partition constructors resolve the partitions of a configuration
    alike when they agree on every (annotation file, sampling-index source,
    label-weight source) triple that the normalized configuration holds. *)
Definition resolves_alike
    (init1 init2 : pyval -> bool -> pyval -> pyval -> result Partition)
    (cfg : Config) : Prop :=
  forall num scene_idxs' label_weights',
    len (_check_ann_files (cfg_ann_files cfg)) = Ok num ->
    _check_scene_idxs (cfg_scene_idxs cfg) num = Ok scene_idxs' ->
    _check_label_weights (cfg_label_weights cfg) num = Ok label_weights' ->
    forall i ann_file one_scene_idxs one_label_weight,
      getitem (_check_ann_files (cfg_ann_files cfg)) i = Ok ann_file ->
      getitem scene_idxs' i = Ok one_scene_idxs ->
      getitem label_weights' i = Ok one_label_weight ->
      init1 ann_file (cfg_test_mode cfg) one_scene_idxs one_label_weight
      = init2 ann_file (cfg_test_mode cfg) one_scene_idxs one_label_weight.

(** ** Example areas *)

Definition scene (name : string) : SceneRecord :=
  {| pts_path := String.append "points/" name;
     pts_semantic_mask_path := String.append "semantic_mask/" name |}.

(** Three scenes sampled [[0,0,1,2]], and two scenes sampled [[0,1,1]]. *)
Definition area_a : Partition :=
  {| data_infos := [scene "a0"; scene "a1"; scene "a2"];
     scene_idxs := [0; 0; 1; 2];
     label_weight := [F32.of_Z 1; F32.of_Z 2] |}.

Definition area_b : Partition :=
  {| data_infos := [scene "b0"; scene "b1"];
     scene_idxs := [0; 1; 1];
     label_weight := [F32.of_Z 3; F32.of_Z 0] |}.

(** Three scenes of which the last one is never sampled. *)
Definition area_a_undersampled : Partition :=
  {| data_infos := [scene "a0"; scene "a1"; scene "a2"];
     scene_idxs := [0; 0; 1];
     label_weight := [F32.of_Z 1; F32.of_Z 2] |}.

(** ** Example collaborators *)

(** A scene metadata store holding the two areas above. *)
Definition example_load_annotations (ann_file : pyval)
    : result (list SceneRecord) :=
  match ann_file with
  | PyStr s =>
      if String.eqb s "area_a.pkl" then Ok (data_infos area_a)
      else if String.eqb s "area_b.pkl" then Ok (data_infos area_b)
      else Raise (IOError s)
  | _ => Raise TypeError
  end.

Definition as_int (x : pyval) : result Z :=
  match x with PyInt z => Ok z | _ => Raise TypeError end.

Definition as_float32 (x : pyval) : result spec_float :=
  match x with
  | PyFloat f => Ok f
  | PyInt z => Ok (F32.of_Z z)
  | _ => Raise TypeError
  end.

(** A sequence of Python values, each converted by [f]. *)
Definition as_array {A} (f : pyval -> result A) (x : pyval)
    : result (list A) :=
  match x with
  | PyList xs | PyTuple xs | PyArray xs =>
      foldr (fun y acc => a ← f y; l ← acc; Ok (a :: l)) (Ok []) xs
  | PyStr s => Raise (IOError s)
  | PyNone | PyInt _ | PyFloat _ => Raise TypeError
  end.

(** [np.arange(n)] *)
Definition arange (n : nat) : list Z := Z.of_nat <$> seq 0 n.

(** Modelled from the spec: the resolver of a partition's sampling index and
    label weights that [Custom3DSegDataset] (custom_3d_seg.py) provides, for
    a store without precomputed artifacts.  In evaluation mode every scene is
    visited exactly once in storage order; otherwise a concrete sequence is
    the sampling index as it stands and a concrete vector the label weights.
    Weights that are not supplied default to one weight 1 per class of
    [_S3DISSegDataset.CLASSES]. *)
Definition example_resolver (test_mode : bool)
    (self_infos : list SceneRecord) (scene_idxs label_weight : pyval)
    : result (list Z * list spec_float) :=
  let ones : list spec_float := (fun _ : nat => F32.of_Z 1) <$> seq 0 13 in
  if test_mode then Ok (arange (length self_infos), ones)
  else
    idxs ← (if is_None scene_idxs then Ok (arange (length self_infos))
            else fmap (M := result) (fmap (M := list) Np.astype_int32)
                   (as_array as_int scene_idxs));
    weight ← (if is_None label_weight then Ok ones
              else as_array as_float32 label_weight);
    Ok (idxs, weight).

(** Two annotation files with three explicit sampling indices and three
    explicit weight vectors. *)
Definition mismatched_config (test_mode : bool) : Config :=
  {| cfg_ann_files := PyList [PyStr "area_a.pkl"; PyStr "area_b.pkl"];
     cfg_test_mode := test_mode;
     cfg_scene_idxs :=
       PyList [PyArray [PyInt 0; PyInt 0; PyInt 1; PyInt 2];
               PyArray [PyInt 0; PyInt 1; PyInt 1];
               PyArray [PyInt 0]];
     cfg_label_weights :=
       PyList [PyArray [PyInt 1; PyInt 2];
               PyArray [PyInt 3; PyInt 0];
               PyArray [PyInt 1; PyInt 1]] |}.

(** Two annotation files with a single explicit sampling index and a single
    explicit weight vector, each wrapped in a list. *)
Definition short_config : Config :=
  {| cfg_ann_files := PyList [PyStr "area_a.pkl"; PyStr "area_b.pkl"];
     cfg_test_mode := false;
     cfg_scene_idxs := PyList [PyArray [PyInt 0; PyInt 0; PyInt 1; PyInt 2]];
     cfg_label_weights := PyList [PyArray [PyInt 1; PyInt 2]] |}.

(** Two annotation files and neither sampling indices nor label weights. *)
Definition bare_config (test_mode : bool) : Config :=
  {| cfg_ann_files := PyList [PyStr "area_a.pkl"; PyStr "area_b.pkl"];
     cfg_test_mode := test_mode;
     cfg_scene_idxs := PyNone;
     cfg_label_weights := PyNone |}.

(** A second store: it answers like the first one on the two areas and
    holds an empty area under every other name. *)
Definition other_load_annotations (ann_file : pyval)
    : result (list SceneRecord) :=
  match example_load_annotations ann_file with
  | Raise (IOError _) => Ok []
  | loaded => loaded
  end.

(** ** Blocks of the merged sampling index *)

(** Every value of a block is below every value of every later block. *)
Fixpoint blocks_ascending (blocks : list (list Z)) : Prop :=
  match blocks with
  | [] => True
  | block :: later =>
      Forall (fun block' =>
                Forall (fun x => Forall (fun y => x < y) block') block) later
      /\ blocks_ascending later
  end.

(** A partition's sampling index shifted by the offset of its iteration. *)
Definition shifted (offset : Z) (part : list Z) : list Z :=
  (fun v => Np.astype_int32 (v + offset)) <$> part.

(** ** Kinds of configuration values *)



(** ** [_S3DISSegDataset.get_ann_info] *)

(** [l[index]] for a Python [int]: a negative index counts from the end, and
    an index outside [-len(l) <= index < len(l)] raises [IndexError]. *)
Definition list_getitem {A} (l : list A) (index : Z) : result A :=
  let n := Z.of_nat (length l) in
  let i := if index <? 0 then index + n else index in
  if (0 <=? i) && (i <? n)
  then match l !! Z.to_nat i with
       | Some x => Ok x
       | None => Raise IndexError
       end
  else Raise IndexError.

(** The returned [dict(pts_semantic_mask_path=...)]. *)
Record AnnsResults : Type := { anns_pts_semantic_mask_path : string }.

Section Annotations.

(** [os.path.join] on two components. *)
Variable osp_join : string -> string -> string.

Definition get_ann_info (data_root : string) (self_infos : list SceneRecord)
    (index : Z) : result AnnsResults :=
  info ← list_getitem self_infos index;
  let pts_semantic_mask_path' :=
    osp_join data_root (pts_semantic_mask_path info) in
  Ok {| anns_pts_semantic_mask_path := pts_semantic_mask_path' |}.

End Annotations.

(** ** [_S3DISSegDataset.show] *)

Definition has_char (c : Ascii.ascii) (s : string) : bool :=
  existsb (Ascii.eqb c) (list_ascii_of_string s).

(** [osp.split(path)[-1]]: what follows the last ['/'] of the path. *)
Fixpoint split_tail (path : string) : string :=
  match path with
  | EmptyString => EmptyString
  | String c rest =>
      if Ascii.eqb c "/"%char || has_char "/"%char rest then split_tail rest
      else String c rest
  end.

(** [name.split('.')[0]]: what precedes the first ['.'] of the name. *)
Fixpoint split_dot_first (name : string) : string :=
  match name with
  | EmptyString => EmptyString
  | String c rest =>
      if Ascii.eqb c "."%char then EmptyString
      else String c (split_dot_first rest)
  end.

(** [file_name = osp.split(pts_path)[-1].split('.')[0]] *)
Definition file_name_of (pts_path : string) : string :=
  split_dot_first (split_tail pts_path).

(** What [show] can end with: its own assertion, or an exception of the
    dataset or of a collaborator. *)
Inductive show_exn : Type :=
  | AssertionError (message : string)
  | Raised (e : exn).

(** One call of the renderer [show_seg_result]. *)
Record Rendering (Points Mask Palette : Type) : Type := {
  r_points : Points;
  r_gt_sem_mask : Mask;
  r_pred_sem_mask : Mask;
  r_out_dir : string;
  r_file_name : string;
  r_palette : Palette;
  r_ignore_index : Z;
  r_show : bool;
}.
Arguments r_points {Points Mask Palette} _.
Arguments r_gt_sem_mask {Points Mask Palette} _.
Arguments r_pred_sem_mask {Points Mask Palette} _.
Arguments r_out_dir {Points Mask Palette} _.
Arguments r_file_name {Points Mask Palette} _.
Arguments r_palette {Points Mask Palette} _.
Arguments r_ignore_index {Points Mask Palette} _.
Arguments r_show {Points Mask Palette} _.

Section Show.
Context {Points Mask Prediction Pipeline Palette : Type}.

(** The collaborators: the pipeline chosen by the base class, the loader of
    the points and ground truth of scene [i], the predicted mask held by a
    result, and the renderer. *)
Variable _get_pipeline : option Pipeline -> result Pipeline.
Variable _extract_data : nat -> Pipeline -> result (Points * Mask).
Variable semantic_mask : Prediction -> result Mask.
Variable show_seg_result : Rendering Points Mask Palette -> result unit.

Variable self_infos : list SceneRecord.
Variable self_palette : Palette.
Variable self_ignore_index : Z.

(** The loop [for i, result in enumerate(results)], from index [i] on; it
    yields the renderings done and how it ended. *)
Fixpoint show_loop (pipeline : Pipeline) (out_dir : string) (show : bool)
    (i : nat) (results : list Prediction)
    : list (Rendering Points Mask Palette) * result unit :=
  match results with
  | [] => ([], Ok ())
  | result :: results' =>
      let rendered :=
        data_info ← list_getitem self_infos (Z.of_nat i);
        let file_name := file_name_of (pts_path data_info) in
        '(points, gt_sem_mask) ← _extract_data i pipeline;
        pred_sem_mask ← semantic_mask result;
        let call :=
          {| r_points := points; r_gt_sem_mask := gt_sem_mask;
             r_pred_sem_mask := pred_sem_mask; r_out_dir := out_dir;
             r_file_name := file_name; r_palette := self_palette;
             r_ignore_index := self_ignore_index; r_show := show |} in
        _ ← show_seg_result call;
        Ok call in
      match rendered with
      | Ok call =>
          let '(calls, outcome) :=
            show_loop pipeline out_dir show (S i) results' in
          (call :: calls, outcome)
      | Raise e => ([], Raise e)
      end
  end.

Definition show (results : list Prediction) (out_dir : option string)
    (show : bool) (pipeline : option Pipeline)
    : list (Rendering Points Mask Palette) * option show_exn :=
  match out_dir with
  | None => ([], Some (AssertionError "Expect out_dir, got none."))
  | Some out_dir' =>
      match _get_pipeline pipeline with
      | Raise e => ([], Some (Raised e))
      | Ok pipeline' =>
          let '(calls, outcome) :=
            show_loop pipeline' out_dir' show 0 results in
          (calls, match outcome with
                  | Ok _ => None
                  | Raise e => Some (Raised e)
                  end)
      end
  end.

End Show.

(** ** Partition datasets of a composite *)

(** Partition dataset [dst] is the one that [init] constructs from entry [i]
    of the three normalized inputs. *)
Definition built_from
    (init : pyval -> bool -> pyval -> pyval -> result Partition)
    (ann_files idxs weights : pyval) (test_mode : bool)
    (i : nat) (dst : Partition) : Prop :=
  exists ann_file one_scene_idxs one_label_weight,
    getitem ann_files i = Ok ann_file
    /\ getitem idxs i = Ok one_scene_idxs
    /\ getitem weights i = Ok one_label_weight
    /\ init ann_file test_mode one_scene_idxs one_label_weight = Ok dst.

(** * Properties *)

(** ** The [int32] cast *)

Lemma astype_int32_id z : Np.in_int32 z -> Np.astype_int32 z = z.
Proof.
  unfold Np.in_int32, Np.astype_int32. intros Hz.
  rewrite Z.mod_small; lia.
Qed.

Lemma astype_int32_range z : Np.in_int32 (Np.astype_int32 z).
Proof.
  unfold Np.in_int32, Np.astype_int32.
  pose proof (Z.mod_pos_bound (z + 2 ^ 31) (2 ^ 32)). lia.
Qed.

(** Adding an offset that was itself cast gives the same array element. *)
Lemma astype_int32_add_cast v o :
  Np.astype_int32 (v + Np.astype_int32 o) = Np.astype_int32 (v + o).
Proof.
  unfold Np.astype_int32. f_equal.
  replace (v + ((o + 2 ^ 31) mod 2 ^ 32 - 2 ^ 31) + 2 ^ 31)
    with (v + (o + 2 ^ 31) mod 2 ^ 32) by lia.
  rewrite Zplus_mod_idemp_r. f_equal. lia.
Qed.

(** The cast never increases a value that is not below the type's minimum. *)
Lemma astype_int32_le z : - 2 ^ 31 <= z -> Np.astype_int32 z <= z.
Proof.
  unfold Np.astype_int32. intros Hz.
  pose proof (Z.mod_le (z + 2 ^ 31) (2 ^ 32)). lia.
Qed.

Lemma astype_int32_fmap_id (l : list Z) :
  Forall Np.in_int32 l -> Np.astype_int32 <$> l = l.
Proof.
  induction 1 as [|x l Hx _ IH]; [done|].
  cbn. by rewrite (astype_int32_id x Hx), IH.
Qed.

(** ** Maximum and [np.unique] *)

Lemma is_max_unique m1 m2 l : is_max m1 l -> is_max m2 l -> m1 = m2.
Proof.
  intros [Hin1 Hle1] [Hin2 Hle2].
  rewrite Forall_forall in Hle1, Hle2.
  specialize (Hle1 _ Hin2). specialize (Hle2 _ Hin1). lia.
Qed.

Lemma foldl_max_is_max (l : list Z) x : is_max (foldl Z.max x l) (x :: l).
Proof.
  revert x. induction l as [|y l IH]; intros x; cbn.
  - split; [apply list_elem_of_here | repeat constructor; lia].
  - destruct (IH (Z.max x y)) as [Hin Hle].
    apply Forall_cons in Hle as [Hxy Hle]. split.
    + rewrite !elem_of_cons. apply elem_of_cons in Hin as [Heq | Hin]; [|auto].
      rewrite Heq. destruct (Z.max_spec x y) as [[_ ->] | [_ ->]]; auto.
    + repeat constructor; [lia | lia | done].
Qed.

Lemma foldr_max_is_max (l : list Z) x : is_max (foldr Z.max x l) (x :: l).
Proof.
  induction l as [|y l [Hin Hle]]; cbn.
  - split; [apply list_elem_of_here | repeat constructor; lia].
  - apply Forall_cons in Hle as [Hx Hle]. split.
    + rewrite !elem_of_cons. apply elem_of_cons in Hin.
      destruct (Z.max_spec y (foldr Z.max x l)) as [[_ ->] | [_ ->]];
        tauto.
    + constructor; [lia|]. constructor; [lia|].
      eapply Forall_impl; [exact Hle | cbn; lia].
Qed.

Lemma np_max_Ok l m : Np.max l = Ok m <-> is_max m l.
Proof.
  destruct l as [|x l]; cbn.
  - split; [done | intros [Hin _]; by apply elem_of_nil in Hin].
  - split.
    + intros [= <-]. apply foldl_max_is_max.
    + intros Hm. f_equal. eapply is_max_unique; [apply foldl_max_is_max | done].
Qed.

Lemma list_maximum_Some l m : list_maximum l = Some m <-> is_max m l.
Proof.
  destruct l as [|x l]; cbn.
  - split; [done | intros [Hin _]; by apply elem_of_nil in Hin].
  - split.
    + intros [= <-]. apply foldr_max_is_max.
    + intros Hm. f_equal. eapply is_max_unique; [apply foldr_max_is_max | done].
Qed.

(** [Np.max] and the specification's maximum agree, the exception standing
    for the missing maximum. *)
Lemma np_max_list_maximum l :
  Np.max l = match list_maximum l with
             | Some m => Ok m
             | None => Raise ValueError
             end.
Proof.
  destruct (list_maximum l) as [m|] eqn:E.
  - by apply np_max_Ok, list_maximum_Some.
  - destruct l; [done | discriminate].
Qed.

Lemma elem_of_insert_sorted y x l :
  y ∈ Np.insert_sorted x l <-> y = x \/ y ∈ l.
Proof.
  induction l as [|z l IH]; cbn.
  - rewrite list_elem_of_singleton, elem_of_nil. tauto.
  - destruct (Z.ltb_spec x z); [by rewrite elem_of_cons|].
    destruct (Z.eqb_spec x z) as [->|_].
    + rewrite elem_of_cons. tauto.
    + rewrite !elem_of_cons, IH. tauto.
Qed.

Lemma elem_of_unique y l : y ∈ Np.unique l <-> y ∈ l.
Proof.
  induction l as [|x l IH]; cbn; [done|].
  by rewrite elem_of_insert_sorted, IH, elem_of_cons.
Qed.

(** Sorting and removing duplicates does not change the maximum. *)
Lemma np_max_unique l : Np.max (Np.unique l) = Np.max l.
Proof.
  destruct (Np.max l) as [m|e] eqn:E.
  - apply np_max_Ok in E as [Hin Hle]. apply np_max_Ok. split.
    + by apply elem_of_unique.
    + rewrite Forall_forall in Hle |- *. intros x Hx.
      by apply Hle, elem_of_unique.
  - destruct l as [|x l]; [done | discriminate].
Qed.

(** ** Scene-record concatenation *)

Lemma concat_data_infos_concat infos : concat_data_infos infos = concat infos.
Proof.
  unfold concat_data_infos.
  induction infos as [|one infos IH]; [done|].
  cbn. rewrite IH. f_equal.
  induction one as [|info one IHone]; [done|]. cbn. by rewrite IHone.
Qed.

Lemma concat_data_infos_cons one infos :
  concat_data_infos (one :: infos) = one ++ concat_data_infos infos.
Proof. by rewrite !concat_data_infos_concat. Qed.

Lemma concat_data_infos_length infos :
  length (concat_data_infos infos) = sum_list (length <$> infos).
Proof.
  induction infos as [|one infos IH]; [done|].
  rewrite concat_data_infos_cons, length_app, IH. done.
Qed.

Lemma range_start_0 counts : range_start counts 0 = 0%nat.
Proof. unfold range_start. by rewrite take_0. Qed.

Lemma range_start_cons c counts k :
  range_start (c :: counts) (S k) = (c + range_start counts k)%nat.
Proof. done. Qed.

(** Consecutive ranges touch: the next one starts where this one ends. *)
Lemma range_start_S (counts : list nat) k c :
  counts !! k = Some c ->
  range_start counts (S k) = (range_start counts k + c)%nat.
Proof.
  revert k. induction counts as [|c0 counts IH]; intros k Hk; [done|].
  destruct k as [|k].
  - injection Hk as ->. rewrite range_start_cons, !range_start_0. lia.
  - cbn in Hk. rewrite !range_start_cons, (IH k Hk). lia.
Qed.

Lemma range_end_le_total (counts : list nat) k c :
  counts !! k = Some c ->
  (range_start counts k + c <= sum_list counts)%nat.
Proof.
  revert k. induction counts as [|c0 counts IH]; intros k Hk; [done|].
  destruct k as [|k].
  - injection Hk as ->. rewrite range_start_0. cbn. lia.
  - cbn in Hk. rewrite range_start_cons. cbn. specialize (IH k Hk). lia.
Qed.

(** The records of partition [k] are the slice of the merged list that
    starts at [range_start k]. *)
Lemma concat_data_infos_slice (infos : list (list SceneRecord)) k one :
  infos !! k = Some one ->
  take (length one)
       (drop (range_start (length <$> infos) k) (concat_data_infos infos))
  = one.
Proof.
  revert k. induction infos as [|one0 infos IH]; intros k Hk; [done|].
  rewrite concat_data_infos_cons. destruct k as [|k].
  - injection Hk as ->. rewrite range_start_0, drop_0.
    by rewrite take_app_length.
  - cbn in Hk. rewrite fmap_cons, range_start_cons.
    rewrite drop_app_add'; [|done]. by apply IH.
Qed.

Lemma concat_data_infos_lookup (infos : list (list SceneRecord)) k one j :
  infos !! k = Some one ->
  (range_start (length <$> infos) k <= j
   < range_start (length <$> infos) k + length one)%nat ->
  concat_data_infos infos !! j
  = one !! (j - range_start (length <$> infos) k)%nat.
Proof.
  intros Hk Hj. rewrite <- (concat_data_infos_slice infos k one Hk) at 1.
  rewrite lookup_take_lt by lia. rewrite lookup_drop. f_equal. lia.
Qed.

(** ** The sampling-index loop *)

(** One iteration, with the array operations carried out. *)
Lemma concat_scene_idxs_loop_cons one rest acc offset :
  concat_scene_idxs_loop (one :: rest) acc offset =
  let acc' := (Np.astype_int32 <$> acc)
              ++ ((fun v => Np.astype_int32 (v + offset)) <$> one) in
  m ← Np.max acc';
  concat_scene_idxs_loop rest acc' (Np.astype_int32 (m + 1)).
Proof.
  cbn [concat_scene_idxs_loop]. unfold Np.concatenate, Np.add_scalar. cbn.
  rewrite app_nil_r, fmap_app, <- list_fmap_compose, np_max_unique.
  reflexivity.
Qed.

(** Once the merged index holds a value the loop runs to its end. *)
Lemma concat_scene_idxs_loop_total rest acc offset :
  acc <> [] -> is_Ok (concat_scene_idxs_loop rest acc offset).
Proof.
  revert acc offset. induction rest as [|one rest IH]; intros acc offset Hne.
  - by eexists.
  - rewrite concat_scene_idxs_loop_cons. cbn zeta.
    destruct acc as [|a acc]; [done|]. cbn. apply IH. done.
Qed.

Lemma concat_scene_idxs_total_iff parts :
  is_Ok (concat_scene_idxs parts) <->
  parts = [] \/ exists one rest, parts = one :: rest /\ one <> [].
Proof.
  unfold concat_scene_idxs. destruct parts as [|one rest].
  - split; [by left | intros _; by eexists].
  - split.
    + intros [merged Hm]. right. exists one, rest. split; [done|].
      intros ->. discriminate.
    + intros [? | (one' & rest' & [= <- <-] & Hne)]; [done|].
      rewrite concat_scene_idxs_loop_cons. cbn zeta.
      destruct one as [|v one]; [done|]. cbn.
      by apply concat_scene_idxs_loop_total.
Qed.

(** *** Against the fold of the specification *)

Lemma fold_merge_step_None parts : fold_left merge_step parts None = None.
Proof. induction parts; [done | by cbn]. Qed.

Lemma merge_step_Some acc offset part :
  merge_step (Some (acc, offset)) part =
  match list_maximum (acc ++ map (Z.add offset) part) with
  | Some m => Some (acc ++ map (Z.add offset) part, 1 + m)
  | None => None
  end.
Proof. unfold merge_step. cbn. by destruct (list_maximum _). Qed.

(** The fold only ever appends to the merged index. *)
Lemma fold_merge_step_extends parts acc offset merged offset' :
  fold_left merge_step parts (Some (acc, offset)) = Some (merged, offset') ->
  exists suffix, merged = acc ++ suffix.
Proof.
  revert acc offset. induction parts as [|part parts IH]; intros acc offset.
  - cbn. intros [= <- _]. exists []. by rewrite app_nil_r.
  - cbn [fold_left]. rewrite merge_step_Some.
    destruct (list_maximum _) as [m|]; [|by rewrite fold_merge_step_None].
    intros Hfold. destruct (IH _ _ Hfold) as [suffix ->].
    eexists. by rewrite <- app_assoc.
Qed.

(** Where the shifted values fit [int32], the casts leave them alone. *)
Lemma add_cast_offset_id (part : list Z) offset :
  Forall Np.in_int32 (map (Z.add offset) part) ->
  (fun v => Np.astype_int32 (v + Np.astype_int32 offset)) <$> part
  = map (Z.add offset) part.
Proof.
  induction part as [|v part IH]; [done|].
  cbn. intros [Hv Hpart]%Forall_cons. rewrite (IH Hpart). f_equal.
  rewrite astype_int32_add_cast, Z.add_comm. by apply astype_int32_id.
Qed.

Lemma concat_scene_idxs_loop_fold parts acc offset merged offset' :
  Forall Np.in_int32 merged ->
  fold_left merge_step parts (Some (acc, offset)) = Some (merged, offset') ->
  concat_scene_idxs_loop parts acc (Np.astype_int32 offset) = Ok merged.
Proof.
  intros Hrange. revert acc offset.
  induction parts as [|part parts IH]; intros acc offset.
  - cbn. by intros [= <- _].
  - cbn [fold_left]. rewrite merge_step_Some.
    destruct (list_maximum _) as [m|] eqn:Hmax;
      [|by rewrite fold_merge_step_None].
    intros Hfold.
    destruct (fold_merge_step_extends _ _ _ _ _ Hfold) as [suffix Hsuffix].
    assert (Hacc : Forall Np.in_int32 (acc ++ map (Z.add offset) part)).
    { rewrite Hsuffix in Hrange. by apply Forall_app in Hrange as [? _]. }
    rewrite concat_scene_idxs_loop_cons. cbn zeta.
    assert (Heq : (Np.astype_int32 <$> acc)
                  ++ ((fun v => Np.astype_int32 (v + Np.astype_int32 offset))
                        <$> part)
                  = acc ++ map (Z.add offset) part).
    { apply Forall_app in Hacc as [Hacc Hpart].
      rewrite (astype_int32_fmap_id acc Hacc). f_equal.
      by apply add_cast_offset_id. }
    rewrite Heq, np_max_list_maximum, Hmax. cbn.
    rewrite (Z.add_comm m 1). by apply IH.
Qed.

Lemma fold_merge_step_total parts acc offset :
  acc <> [] -> is_Some (fold_left merge_step parts (Some (acc, offset))).
Proof.
  revert acc offset. induction parts as [|part parts IH]; intros acc offset Hne.
  - by eexists.
  - cbn [fold_left]. rewrite merge_step_Some.
    destruct acc as [|a acc]; [done|]. cbn. by apply IH.
Qed.

Lemma merged_index_fold_None_iff parts :
  merged_index_fold parts = None <->
  concat_scene_idxs parts = Raise ValueError.
Proof.
  unfold merged_index_fold, concat_scene_idxs.
  destruct parts as [|one rest]; [done|].
  destruct one as [|v one].
  - cbn. by rewrite fold_merge_step_None.
  - cbn [fold_left]. rewrite merge_step_Some, concat_scene_idxs_loop_cons.
    cbn. split.
    + intros Hnone. exfalso.
      edestruct (fold_merge_step_total rest) as [st Hst];
        [|rewrite Hst in Hnone; discriminate].
      done.
    + intros Hraise. exfalso.
      edestruct (concat_scene_idxs_loop_total rest) as [merged Hm];
        [|rewrite Hm in Hraise; discriminate].
      done.
Qed.

(** *** Bounds on the merged index *)

Lemma merged_scene_count_sum datasets :
  merged_scene_count datasets = sum_list (scene_count <$> datasets).
Proof.
  unfold merged_scene_count. rewrite concat_data_infos_length.
  by rewrite <- list_fmap_compose.
Qed.

Lemma merged_scene_count_cons dst datasets :
  merged_scene_count (dst :: datasets)
  = (scene_count dst + merged_scene_count datasets)%nat.
Proof. by rewrite !merged_scene_count_sum. Qed.

(** The loop keeps every merged value below the number of scenes seen so
    far, and the offset at most that number. *)
Lemma concat_scene_idxs_loop_bounded datasets acc offset seen merged :
  Forall locally_valid datasets ->
  Forall Np.in_int32 acc ->
  Forall (fun v => v < seen) acc ->
  - 2 ^ 31 <= offset <= seen ->
  concat_scene_idxs_loop (scene_idxs <$> datasets) acc offset = Ok merged ->
  Forall (fun v => v < seen + Z.of_nat (merged_scene_count datasets)) merged.
Proof.
  intros Hvalid. revert acc offset seen.
  induction Hvalid as [|dst datasets Hdst _ IH];
    intros acc offset seen Hrange Hacc Hoff.
  - cbn. intros [= <-]. eapply Forall_impl; [exact Hacc | cbn; lia].
  - rewrite merged_scene_count_cons, Nat2Z.inj_add, Z.add_assoc.
    rewrite fmap_cons, concat_scene_idxs_loop_cons. cbn zeta.
    set (acc' := _ ++ _).
    assert (Hrange' : Forall Np.in_int32 acc').
    { apply Forall_app. split; apply Forall_fmap, Forall_forall;
        intros; apply astype_int32_range. }
    assert (Hacc' : Forall (fun v => v < seen + Z.of_nat (scene_count dst))
                      acc').
    { apply Forall_app. split; apply Forall_fmap.
      - eapply Forall_impl; [apply Forall_and; split;
                               [exact Hrange | exact Hacc]|].
        cbn. intros v [Hv Hlt]. rewrite astype_int32_id by done. lia.
      - eapply Forall_impl; [exact Hdst|]. cbn. intros v Hv.
        pose proof (astype_int32_le (v + offset)). lia. }
    destruct (Np.max acc') as [m|e] eqn:Hmax; [|done]. cbn.
    apply np_max_Ok in Hmax as [Hin _].
    assert (Hm : Np.in_int32 m /\ m < seen + Z.of_nat (scene_count dst)).
    { rewrite Forall_forall in Hrange', Hacc'. auto. }
    destruct Hm as [Hm Hlt]. intros Hloop.
    eapply IH; [exact Hrange' | exact Hacc' | | exact Hloop].
    pose proof (astype_int32_range (m + 1)) as Hr.
    pose proof (astype_int32_le (m + 1)) as Hle.
    unfold Np.in_int32 in *. lia.
Qed.

(** Valid offsets shifted by the number of scenes seen so far fit [int32]
    as long as the scenes do. *)
Lemma shift_valid_no_cast count (idxs : list Z) seen :
  valid_scene_idxs count idxs ->
  0 <= seen -> seen + Z.of_nat count <= 2 ^ 31 ->
  (fun v => Np.astype_int32 (v + Np.astype_int32 seen)) <$> idxs
  = (fun v => v + seen) <$> idxs.
Proof.
  intros Hvalid Hseen Hfit. apply Forall_fmap_ext.
  eapply Forall_impl; [exact Hvalid|]. cbn. intros v Hv.
  rewrite astype_int32_add_cast. apply astype_int32_id.
  unfold Np.in_int32. lia.
Qed.

(** When every sampling index reaches the last scene of its partition, the
    offset is the number of scenes seen so far and the maximum of the merged
    index is the last merged scene. *)
Lemma concat_scene_idxs_loop_exact datasets dst acc seen :
  Forall locally_valid (dst :: datasets) ->
  Forall reaches_last_scene (dst :: datasets) ->
  Forall (fun v => 0 <= v < seen) acc ->
  0 <= seen ->
  seen + Z.of_nat (merged_scene_count (dst :: datasets)) <= 2 ^ 31 ->
  exists merged,
    concat_scene_idxs_loop (scene_idxs <$> dst :: datasets) acc
      (Np.astype_int32 seen) = Ok merged
    /\ is_max (seen + Z.of_nat (merged_scene_count (dst :: datasets)) - 1)
         merged.
Proof.
  revert dst acc seen.
  induction datasets as [|dst' datasets IH]; intros dst acc seen
    [Hvalid Hvalids]%Forall_cons [Hlast Hlasts]%Forall_cons Hacc Hseen Hfit;
    rewrite merged_scene_count_cons, Nat2Z.inj_add in Hfit |- *;
    rewrite fmap_cons, concat_scene_idxs_loop_cons; cbn zeta;
    (rewrite astype_int32_fmap_id;
       [|eapply Forall_impl; [exact Hacc | unfold Np.in_int32; cbn; lia]]);
    (rewrite (shift_valid_no_cast (scene_count dst)); [|done|done|lia]);
    set (acc' := acc ++ _);
    assert (Hmax : is_max (seen + Z.of_nat (scene_count dst) - 1) acc').
  1, 3: split;
    [ apply elem_of_app; right; apply list_elem_of_fmap;
      exists (Z.of_nat (scene_count dst) - 1); split; [lia | exact Hlast]
    | apply Forall_app; split;
      [ eapply Forall_impl; [exact Hacc | cbn; lia]
      | apply Forall_fmap; eapply Forall_impl; [exact Hvalid | cbn; lia] ] ].
  - pose proof (proj2 (np_max_Ok _ _) Hmax) as Hnp. rewrite Hnp. cbn.
    exists acc'. split; [done|].
    change (Z.of_nat 0) with 0. by rewrite Z.add_0_r.
  - pose proof (proj2 (np_max_Ok _ _) Hmax) as Hnp. rewrite Hnp. cbn.
    replace (seen + Z.of_nat (scene_count dst) - 1 + 1)
      with (seen + Z.of_nat (scene_count dst)) by lia.
    rewrite Z.add_assoc. apply IH; [done | done | | lia | lia].
    apply Forall_app. split.
    + eapply Forall_impl; [exact Hacc | cbn; lia].
    + apply Forall_fmap. eapply Forall_impl; [exact Hvalid | cbn; lia].
Qed.

(** * Statements of the specification *)

(** C1.  The merged sampling index is the left-to-right fold of the
    specification: starting from offset 0, the offset is added to every value
    of the next partition, the result is appended, and the offset becomes one
    plus the maximum of the merged index.  Whenever that fold yields values
    of the array's [int32] type, [concat_scene_idxs] returns them, and the
    fold has no result exactly when [concat_scene_idxs] raises.  Sampling
    indices [[0,0,1,2]] (3 scenes) and [[0,1,1]] (2 scenes) merge to
    [[0,0,1,2,3,4,4]] over 5 scenes; the offset is not the running scene
    count, as [[0,0,1]] over 3 scenes followed by [[0,1]] shows. *)
Theorem concat_scene_idxs_is_offset_fold :
  (forall parts merged,
      merged_index_fold parts = Some merged ->
      Forall Np.in_int32 merged ->
      concat_scene_idxs parts = Ok merged)
  /\ (forall parts,
         merged_index_fold parts = None <->
         concat_scene_idxs parts = Raise ValueError)
  /\ concat_scene_idxs [scene_idxs area_a; scene_idxs area_b]
     = Ok [0; 0; 1; 2; 3; 4; 4]
  /\ length (concat_data_infos [data_infos area_a; data_infos area_b])
     = 5%nat
  /\ concat_scene_idxs
       [scene_idxs area_a_undersampled; scene_idxs area_b]
     = Ok [0; 0; 1; 2; 3; 3]
  /\ running_sum_merge
       [(scene_count area_a_undersampled, scene_idxs area_a_undersampled);
        (scene_count area_b, scene_idxs area_b)] 0
     = [0; 0; 1; 3; 4; 4].
Proof.
  split; [|split; [exact merged_index_fold_None_iff | by repeat split]].
  intros parts merged Hfold Hrange. unfold merged_index_fold in Hfold.
  destruct (fold_left merge_step parts (Some ([], 0)))
    as [[merged' offset']|] eqn:E; [|done].
  injection Hfold as ->.
  exact (concat_scene_idxs_loop_fold parts [] 0 merged offset' Hrange E).
Qed.

Lemma concat_scene_idxs_is_offset_fold_witness :
  concat_scene_idxs [[5; 5; 6]; [0; 2]; [1]] = Ok [5; 5; 6; 7; 9; 11].
Proof.
  apply (proj1 concat_scene_idxs_is_offset_fold).
  - reflexivity.
  - repeat constructor; unfold Np.in_int32; lia.
Defined.

(** C5.  When every partition's sampling index holds only values below that
    partition's scene count (and, being offsets, not below 0), every value of
    the merged sampling index is below the merged scene count, which is the
    sum of the partitions' scene counts; and the merge returns an index
    whenever no partition's sampling index is empty. *)
Theorem merged_scene_idxs_below_scene_count (datasets : list Partition) :
  Forall locally_valid datasets ->
  (forall merged,
      concat_scene_idxs (scene_idxs <$> datasets) = Ok merged ->
      Forall (fun v => v < Z.of_nat (merged_scene_count datasets)) merged)
  /\ merged_scene_count datasets = sum_list (scene_count <$> datasets)
  /\ (Forall (fun dst => scene_idxs dst <> []) datasets ->
      is_Ok (concat_scene_idxs (scene_idxs <$> datasets))).
Proof.
  intros Hvalid. split; [|split].
  - intros merged Hmerged.
    apply (concat_scene_idxs_loop_bounded datasets [] 0 0 merged);
      [done | constructor | constructor | lia | exact Hmerged].
  - apply merged_scene_count_sum.
  - intros Hne. apply concat_scene_idxs_total_iff.
    destruct Hne as [|dst datasets Hdst _]; [by left|].
    right. by exists (scene_idxs dst), (scene_idxs <$> datasets).
Qed.

Lemma merged_scene_idxs_below_scene_count_witness :
  Forall locally_valid [area_a; area_b]
  /\ Forall (fun v => v < 5) [0; 0; 1; 2; 3; 4; 4].
Proof.
  assert (Hvalid : Forall locally_valid [area_a; area_b])
    by (repeat constructor; cbn; lia).
  split; [exact Hvalid|].
  apply (proj1 (merged_scene_idxs_below_scene_count [area_a; area_b] Hvalid)).
  reflexivity.
Defined.

(** C3, as stated, fails: validity of the local sampling indices is not
    enough.  Area A has 3 scenes and samples only the first two, area B has 2
    scenes; both indices are valid and non-empty, the merged index is
    [[0,0,1,2,3,3]] with maximum 3, while the merged list has 5 records. *)
Lemma merged_max_counterexample :
  Forall locally_valid [area_a_undersampled; area_b]
  /\ Forall (fun dst => data_infos dst <> [] /\ scene_idxs dst <> [])
       [area_a_undersampled; area_b]
  /\ concat_scene_idxs (scene_idxs <$> [area_a_undersampled; area_b])
     = Ok [0; 0; 1; 2; 3; 3]
  /\ Np.max [0; 0; 1; 2; 3; 3] = Ok 3
  /\ Z.of_nat (length (concat_data_infos
                         (data_infos <$> [area_a_undersampled; area_b]))) - 1
     = 4
  /\ 3 <> 4.
Proof.
  split; [repeat constructor; cbn; lia|].
  split; [by repeat constructor|].
  by repeat split.
Qed.

(** C3, amended.  For at least one partition, when every local sampling
    index is valid and reaches the last scene of its partition, and the
    merged scene count fits the [int32] element type, the merge returns an
    index whose maximum is the length of the merged scene-record list minus
    1; and (without those conditions) the scenes of each partition occupy the
    slice of the merged list that starts where the previous partition's slice
    ends, in partition order. *)
Theorem merged_max_is_last_scene (datasets : list Partition) :
  datasets <> [] ->
  Forall locally_valid datasets ->
  Forall reaches_last_scene datasets ->
  Z.of_nat (merged_scene_count datasets) <= 2 ^ 31 ->
  (exists merged,
      concat_scene_idxs (scene_idxs <$> datasets) = Ok merged
      /\ Np.max merged
         = Ok (Z.of_nat (length (concat_data_infos (data_infos <$> datasets)))
               - 1))
  /\ (forall k dst,
         datasets !! k = Some dst ->
         let start := range_start (scene_count <$> datasets) k in
         take (scene_count dst)
              (drop start (concat_data_infos (data_infos <$> datasets)))
         = data_infos dst
         /\ range_start (scene_count <$> datasets) (S k)
            = (start + scene_count dst)%nat
         /\ (start + scene_count dst <= merged_scene_count datasets)%nat).
Proof.
  intros Hne Hvalid Hlast Hfit. split.
  - destruct datasets as [|dst datasets]; [done|].
    destruct (concat_scene_idxs_loop_exact datasets dst [] 0)
      as (merged & Hmerged & Hmax); [done | done | constructor | lia | lia |].
    exists merged. split; [exact Hmerged|].
    apply np_max_Ok. exact Hmax.
  - intros k dst Hk start.
    assert (Hcount : (scene_count <$> datasets) !! k = Some (scene_count dst))
      by (by rewrite list_lookup_fmap, Hk).
    split; [|split].
    + unfold start, scene_count.
      rewrite (list_fmap_compose data_infos length).
      apply concat_data_infos_slice. by rewrite list_lookup_fmap, Hk.
    + by apply range_start_S.
    + rewrite merged_scene_count_sum. by apply range_end_le_total.
Qed.

Lemma merged_max_is_last_scene_witness :
  Forall reaches_last_scene [area_a; area_b]
  /\ exists merged,
       concat_scene_idxs (scene_idxs <$> [area_a; area_b]) = Ok merged
       /\ Np.max merged = Ok 4.
Proof.
  assert (Hlast : Forall reaches_last_scene [area_a; area_b]).
  { apply Forall_cons. split; [|apply Forall_cons; split; [|constructor]];
      unfold reaches_last_scene; cbn.
    - do 3 apply list_elem_of_further. apply list_elem_of_here.
    - apply list_elem_of_further, list_elem_of_here. }
  split; [exact Hlast|].
  apply (merged_max_is_last_scene [area_a; area_b]);
    [done | repeat constructor; cbn; lia | exact Hlast | cbn; lia].
Defined.

(** C7.  The merged scene-record list is the ordered concatenation of the
    partitions' lists: its length is the sum of their lengths, and at every
    position [j] of partition [k]'s range it holds partition [k]'s record at
    [j] minus the start of that range. *)
Theorem concat_data_infos_ordered (infos : list (list SceneRecord)) :
  length (concat_data_infos infos) = sum_list (length <$> infos)
  /\ forall k one j,
       infos !! k = Some one ->
       let start := range_start (length <$> infos) k in
       (start <= j < start + length one)%nat ->
       concat_data_infos infos !! j = one !! (j - start)%nat
       /\ is_Some (one !! (j - start)%nat).
Proof.
  split; [apply concat_data_infos_length|].
  intros k one j Hk start Hj. split.
  - by apply concat_data_infos_lookup.
  - apply lookup_lt_is_Some. lia.
Qed.

Lemma concat_data_infos_ordered_witness :
  concat_data_infos [data_infos area_a; data_infos area_b] !! 4%nat
  = Some (scene "b1").
Proof.
  apply (proj2 (concat_data_infos_ordered
                  [data_infos area_a; data_infos area_b])
           1%nat (data_infos area_b) 4%nat); [reflexivity | cbn; lia].
Defined.

(** C10.  The merge can fail on locally valid input: when the sampling index
    of the first partition is empty (which is valid for any scene count), the
    maximum of the still empty merged index does not exist and
    [concat_scene_idxs] raises [ValueError].  The merge returns exactly when
    there is no partition at all or the first sampling index is non-empty,
    the merged index being non-empty at every later step. *)
Theorem concat_scene_idxs_empty_first_raises :
  (forall count rest,
      valid_scene_idxs count []
      /\ concat_scene_idxs ([] :: rest) = Raise ValueError)
  /\ (forall parts,
         is_Ok (concat_scene_idxs parts) <->
         parts = [] \/ exists one rest, parts = one :: rest /\ one <> [])
  /\ (forall rest acc offset,
         acc <> [] -> is_Ok (concat_scene_idxs_loop rest acc offset)).
Proof.
  split; [|split].
  - intros count rest. split; [constructor | reflexivity].
  - exact concat_scene_idxs_total_iff.
  - exact concat_scene_idxs_loop_total.
Qed.

(** ** The mean of the label weights *)

Section MeanAxis0Facts.
Context {F : Type}.
Variable add : F -> F -> F.

Lemma foldl_zip_with_length (rows : list (list F)) (row : list F) :
  Forall (fun r => length r = length row) rows ->
  length (foldl (zip_with add) row rows) = length row.
Proof.
  revert row. induction rows as [|r rows IH]; intros row Hlen; [done|].
  apply Forall_cons in Hlen as [Hr Hrows]. cbn.
  rewrite IH; [by apply length_zip_with_l_eq|].
  eapply Forall_impl; [exact Hrows|]. cbn. intros r' ->.
  symmetry. by apply length_zip_with_l_eq.
Qed.

(** Entry [j] of the sum of the rows is the sum, first row to last, of the
    rows' entries [j]. *)
Lemma foldl_zip_with_lookup (rows : list (list F)) (row : list F) j x xs :
  row !! j = Some x ->
  Forall2 (fun r y => r !! j = Some y) rows xs ->
  foldl (zip_with add) row rows !! j = Some (foldl add x xs).
Proof.
  intros Hx Hxs. revert row x Hx.
  induction Hxs as [|r y rows xs Hy _ IH]; intros row x Hx; [done|].
  cbn. apply IH. by rewrite lookup_zip_with, Hx, Hy.
Qed.

Lemma same_length_forallb (rows : list (list F)) (row : list F) :
  Forall (fun r => length r = length row) rows ->
  forallb (fun r => Nat.eqb (length r) (length row)) rows = true.
Proof.
  induction 1 as [|r rows Hr _ IH]; [done|].
  cbn. rewrite IH. by rewrite Hr, Nat.eqb_refl.
Qed.

End MeanAxis0Facts.

(** C6.  The merged label weights are the element-wise arithmetic mean of
    the per-partition vectors: for [N] vectors of one length, the result is a
    vector of that length whose entry [j] is the sum of the [N] entries [j],
    taken in partition order, divided by [N]; no scene or point count enters
    it.  This holds for the arithmetic of any element type, in particular
    for [float32], where [[1.0, 2.0]] and [[3.0, 0.0]] merge to
    [[2.0, 1.0]]. *)
Theorem concat_label_weight_is_mean :
  (forall (F : Type) (add : F -> F -> F) (div_count : F -> nat -> F)
          (astype_float32 : F -> F) (nan : F) (row : list F) rows,
      Forall (fun r => length r = length row) rows ->
      exists mean,
        mean_axis0 add div_count astype_float32 nan (row :: rows)
        = Ok (Vector mean)
        /\ length mean = length row
        /\ forall j x xs,
             row !! j = Some x ->
             Forall2 (fun r y => r !! j = Some y) rows xs ->
             mean !! j
             = Some (astype_float32
                       (div_count (foldl add x xs) (length (row :: rows)))))
  /\ (forall row rows,
         Forall (fun r => length r = length row) rows ->
         exists mean,
           concat_label_weight (row :: rows) = Ok (Vector mean)
           /\ length mean = length row
           /\ forall j x xs,
                row !! j = Some x ->
                Forall2 (fun r y => r !! j = Some y) rows xs ->
                mean !! j
                = Some (F32.div (foldl F32.add x xs)
                          (F32.of_Z (Z.of_nat (length (row :: rows))))))
  /\ concat_label_weight [label_weight area_a; label_weight area_b]
     = Ok (Vector [F32.of_Z 2; F32.of_Z 1]).
Proof.
  assert (Hgen : forall (F : Type) (add : F -> F -> F)
            (div_count : F -> nat -> F) (astype_float32 : F -> F) (nan : F)
            (row : list F) rows,
      Forall (fun r => length r = length row) rows ->
      exists mean,
        mean_axis0 add div_count astype_float32 nan (row :: rows)
        = Ok (Vector mean)
        /\ length mean = length row
        /\ forall j x xs,
             row !! j = Some x ->
             Forall2 (fun r y => r !! j = Some y) rows xs ->
             mean !! j
             = Some (astype_float32
                       (div_count (foldl add x xs) (length (row :: rows))))).
  { intros F add div_count astype_float32 nan row rows Hlen.
    unfold mean_axis0. rewrite (same_length_forallb rows row Hlen).
    eexists. split; [reflexivity|]. split.
    - rewrite length_fmap. by apply foldl_zip_with_length.
    - intros j x xs Hx Hxs.
      by rewrite list_lookup_fmap, (foldl_zip_with_lookup add rows row j x xs). }
  split; [exact Hgen|]. split; [|by vm_compute].
  intros row rows Hlen. apply (Hgen _ F32.add F32.div_count id F32.nan _ _ Hlen).
Qed.

Lemma concat_label_weight_is_mean_witness :
  exists mean,
    concat_label_weight [label_weight area_a; label_weight area_b]
    = Ok (Vector mean)
    /\ mean !! 1%nat
       = Some (F32.div (F32.add (F32.of_Z 2) (F32.of_Z 0)) (F32.of_Z 2)).
Proof.
  destruct (proj1 (proj2 concat_label_weight_is_mean)
              (label_weight area_a) [label_weight area_b])
    as (mean & Hmean & _ & Hentry).
  - by repeat constructor.
  - exists mean. split; [exact Hmean|].
    apply (Hentry 1%nat (F32.of_Z 2) [F32.of_Z 0]); [done|].
    by repeat constructor.
Defined.

(** ** Normalization *)

Lemma duplicate_to_list_replicate x num :
  _duplicate_to_list x num = PyList (replicate num x).
Proof.
  unfold _duplicate_to_list. f_equal.
  rewrite (const_fmap (fun _ : nat => x) (seq 0 num) x) by done.
  by rewrite length_seq.
Qed.

Lemma len_duplicate_to_list x num : len (_duplicate_to_list x num) = Ok num.
Proof. rewrite duplicate_to_list_replicate. cbn. by rewrite length_replicate. Qed.

Lemma getitem_duplicate_to_list x num i :
  (i < num)%nat -> getitem (_duplicate_to_list x num) i = Ok x.
Proof.
  intros Hi. rewrite duplicate_to_list_replicate. cbn.
  by rewrite lookup_replicate_2.
Qed.

(** A sequence whose first element is neither a string nor a sequence is
    taken for one index array or weight vector and shared. *)
Lemma check_single_array x first num :
  isinstance_str x = false ->
  getitem x 0 = Ok first ->
  isinstance_str first = false ->
  isinstance_list_tuple_ndarray first = false ->
  _check_scene_idxs x num = Ok (_duplicate_to_list x num)
  /\ _check_label_weights x num = Ok (_duplicate_to_list x num).
Proof.
  intros Hx Hfirst Hstr Hseq.
  assert (Hnone : is_None x = false) by (by destruct x).
  unfold _check_scene_idxs, _check_label_weights.
  rewrite Hnone, Hx, Hfirst. cbn. by rewrite Hstr, Hseq.
Qed.

(** A sequence whose first element is a string or a sequence is taken for
    the per-partition collection and returned as it is, of any length. *)
Lemma check_explicit_collection x first num :
  isinstance_str x = false ->
  getitem x 0 = Ok first ->
  isinstance_str first || isinstance_list_tuple_ndarray first = true ->
  _check_scene_idxs x num = Ok x /\ _check_label_weights x num = Ok x.
Proof.
  intros Hx Hfirst Hkind.
  assert (Hnone : is_None x = false) by (by destruct x).
  unfold _check_scene_idxs, _check_label_weights.
  rewrite Hnone, Hx, Hfirst. cbn.
  destruct (isinstance_str first); [done|]. cbn in Hkind. by rewrite Hkind.
Qed.

(** C8.  Normalization expands an absent input and a single shared source to
    exactly [N] entries: [None] becomes [N] copies of [None]; a string, and
    an array (or list or tuple) whose first element is a number, becomes [N]
    copies of itself, so every partition [i < N] receives it unchanged.  With
    three annotation files a single sampling-index source is handed to all
    three partitions. *)
Theorem normalization_replicates :
  (forall num,
      _check_scene_idxs PyNone num = Ok (PyList (replicate num PyNone))
      /\ _check_label_weights PyNone num = Ok (PyList (replicate num PyNone)))
  /\ (forall s num,
         _check_scene_idxs (PyStr s) num = Ok (PyList (replicate num (PyStr s)))
         /\ _check_label_weights (PyStr s) num
            = Ok (PyList (replicate num (PyStr s))))
  /\ (forall x first num,
         isinstance_str x = false ->
         getitem x 0 = Ok first ->
         isinstance_str first = false ->
         isinstance_list_tuple_ndarray first = false ->
         _check_scene_idxs x num = Ok (PyList (replicate num x))
         /\ _check_label_weights x num = Ok (PyList (replicate num x)))
  /\ (forall x num,
         len (PyList (replicate num x)) = Ok num
         /\ forall i, (i < num)%nat ->
                      getitem (PyList (replicate num x)) i = Ok x)
  /\ (let ann_files := PyList [PyStr "area_1.pkl"; PyStr "area_2.pkl";
                               PyStr "area_3.pkl"] in
      let source := PyStr "scene_idxs.npy" in
      let array := PyArray [PyInt 0; PyInt 0; PyInt 1] in
      len (_check_ann_files ann_files) = Ok 3%nat
      /\ _check_scene_idxs source 3 = Ok (PyList [source; source; source])
      /\ _check_scene_idxs array 3 = Ok (PyList [array; array; array])).
Proof.
  split; [|split; [|split; [|split]]].
  - intros num. unfold _check_scene_idxs, _check_label_weights. cbn.
    by rewrite duplicate_to_list_replicate.
  - intros s num. unfold _check_scene_idxs, _check_label_weights. cbn.
    by rewrite duplicate_to_list_replicate.
  - intros x first num Hx Hfirst Hstr Hseq.
    rewrite <- duplicate_to_list_replicate.
    by apply (check_single_array x first).
  - intros x num. rewrite <- duplicate_to_list_replicate. split.
    + apply len_duplicate_to_list.
    + intros i Hi. by apply getitem_duplicate_to_list.
  - by repeat split.
Qed.

Lemma normalization_replicates_witness :
  _check_label_weights (PyList [PyFloat (F32.of_Z 1); PyFloat (F32.of_Z 2)]) 3
  = Ok (PyList (replicate 3
                  (PyList [PyFloat (F32.of_Z 1); PyFloat (F32.of_Z 2)]))).
Proof.
  apply (proj1 (proj2 (proj2 normalization_replicates))
           _ (PyFloat (F32.of_Z 1)) 3%nat); reflexivity.
Defined.

(** C2 at a failing input.  An explicit per-partition collection is returned
    as it is, whatever its length: with two annotation files and three
    explicit sampling indices and weight vectors nothing is raised and the
    composite is built from the first two entries.  With one explicit entry
    the constructor stops with the [IndexError] of the missing second entry,
    after one partition dataset has been built. *)
Theorem explicit_collections_not_length_checked :
  (forall x first num,
      isinstance_str x = false ->
      getitem x 0 = Ok first ->
      isinstance_str first || isinstance_list_tuple_ndarray first = true ->
      _check_scene_idxs x num = Ok x /\ _check_label_weights x num = Ok x)
  /\ len (_check_ann_files (cfg_ann_files (mismatched_config false)))
     = Ok 2%nat
  /\ len (cfg_scene_idxs (mismatched_config false)) = Ok 3%nat
  /\ len (cfg_label_weights (mismatched_config false)) = Ok 3%nat
  /\ (exists composite,
         S3DISSegDataset_init example_load_annotations example_resolver
           (mismatched_config false) 0%nat
         = (2%nat, Ok composite)
         /\ self_scene_idxs composite = [0; 0; 1; 2; 3; 4; 4])
  /\ S3DISSegDataset_init example_load_annotations example_resolver
       short_config 0%nat
     = (1%nat, Raise IndexError).
Proof.
  split; [exact check_explicit_collection|].
  do 3 (split; [reflexivity|]).
  split; [|by vm_compute].
  eexists. split; [by vm_compute | reflexivity].
Qed.

(** ** Construction *)

Lemma bind_lift {A B} (r : result A) (k : A -> Build B) built :
  (lift r ≫= k) built
  = match r with
    | Ok a => k a built
    | Raise e => (built, Raise e)
    end.
Proof. unfold mbind, Build_bind, lift. by destruct r. Qed.

Section ConstructionFacts.
Variable load_annotations : pyval -> result (list SceneRecord).
Variable super_get_scene_idxs_and_label_weight :
  bool -> list SceneRecord -> pyval -> pyval ->
  result (list Z * list spec_float).

Abbreviation partition_init :=
  (_S3DISSegDataset_init load_annotations
     super_get_scene_idxs_and_label_weight).
Abbreviation composite_init :=
  (S3DISSegDataset_init load_annotations
     super_get_scene_idxs_and_label_weight).

Lemma training_guard infos label_weight :
  get_scene_idxs_and_label_weight super_get_scene_idxs_and_label_weight
    false infos PyNone label_weight
  = Raise NotImplementedError.
Proof. reflexivity. Qed.

Lemma evaluation_guard infos scene_idxs label_weight :
  get_scene_idxs_and_label_weight super_get_scene_idxs_and_label_weight
    true infos scene_idxs label_weight
  = super_get_scene_idxs_and_label_weight true infos scene_idxs label_weight.
Proof. reflexivity. Qed.

Lemma partition_init_training_None ann_file label_weight :
  partition_init ann_file false PyNone label_weight
  = match load_annotations ann_file with
    | Ok _ => Raise NotImplementedError
    | Raise e => Raise e
    end.
Proof.
  unfold _S3DISSegDataset_init. by destruct (load_annotations ann_file).
Qed.

(** In training mode without sampling indices the constructor of the
    composite raises while it initializes itself from the first annotation
    file, or earlier, with the number of partition datasets built
    unchanged. *)
Lemma composite_init_training_None cfg built :
  cfg_test_mode cfg = false ->
  cfg_scene_idxs cfg = PyNone ->
  exists e, composite_init cfg built = (built, Raise e).
Proof.
  intros Hmode Hidxs. unfold S3DISSegDataset_init. rewrite Hmode, Hidxs.
  rewrite bind_lift. destruct (len _) as [num|e]; [|by eexists].
  rewrite bind_lift.
  change (_check_scene_idxs PyNone num) with (Ok (_duplicate_to_list PyNone num)).
  cbn match. rewrite bind_lift.
  destruct (_check_label_weights _ _) as [label_weights'|e]; [|by eexists].
  rewrite bind_lift. destruct (getitem _ 0) as [ann_file0|e]; [|by eexists].
  rewrite bind_lift.
  destruct num as [|num]; [by eexists|].
  rewrite getitem_duplicate_to_list by lia.
  rewrite bind_lift.
  destruct (getitem label_weights' 0) as [label_weight0|e]; [|by eexists].
  rewrite bind_lift, partition_init_training_None.
  destruct (load_annotations ann_file0); by eexists.
Qed.

End ConstructionFacts.

(** C4.  In training mode ([test_mode] false) with no sampling-index source
    ([scene_idxs] is [None]) the resolver of the partition dataset raises
    [NotImplementedError], so the partition dataset is never constructed and,
    once its annotation file is read, that is the error raised; the composite
    raises with no partition dataset built, while it initializes itself.  In
    evaluation mode the guard lets the same absent input through to the
    resolver of the base class, and the partition dataset is constructed from
    what that returns: with one visit per scene, the two example areas build
    into a composite. *)
Theorem training_requires_scene_idxs :
  (forall (load_annotations : pyval -> result (list SceneRecord))
          (super_resolver : bool -> list SceneRecord -> pyval -> pyval ->
                            result (list Z * list spec_float)),
      (forall infos label_weight,
          get_scene_idxs_and_label_weight super_resolver false infos
            PyNone label_weight
          = Raise NotImplementedError)
      /\ (forall ann_file label_weight,
             raises (_S3DISSegDataset_init load_annotations super_resolver
                       ann_file false PyNone label_weight)
             /\ forall infos,
                  load_annotations ann_file = Ok infos ->
                  _S3DISSegDataset_init load_annotations super_resolver
                    ann_file false PyNone label_weight
                  = Raise NotImplementedError)
      /\ (forall cfg built,
             cfg_test_mode cfg = false ->
             cfg_scene_idxs cfg = PyNone ->
             exists e,
               S3DISSegDataset_init load_annotations super_resolver cfg built
               = (built, Raise e))
      /\ (forall infos label_weight,
             get_scene_idxs_and_label_weight super_resolver true infos
               PyNone label_weight
             = super_resolver true infos PyNone label_weight)
      /\ (forall ann_file label_weight infos idxs weight,
             load_annotations ann_file = Ok infos ->
             super_resolver true infos PyNone label_weight
             = Ok (idxs, weight) ->
             _S3DISSegDataset_init load_annotations super_resolver
               ann_file true PyNone label_weight
             = Ok {| data_infos := infos; scene_idxs := idxs;
                     label_weight := weight |}))
  /\ S3DISSegDataset_init example_load_annotations example_resolver
       (bare_config false) 0%nat
     = (0%nat, Raise NotImplementedError)
  /\ _S3DISSegDataset_init example_load_annotations example_resolver
       (PyStr "area_a.pkl") true PyNone PyNone
     = Ok {| data_infos := data_infos area_a; scene_idxs := [0; 1; 2];
             label_weight := replicate 13 (F32.of_Z 1) |}
  /\ exists composite,
       S3DISSegDataset_init example_load_annotations example_resolver
         (bare_config true) 0%nat
       = (2%nat, Ok composite)
       /\ self_scene_idxs composite = [0; 1; 2; 3; 4].
Proof.
  split; [|split; [by vm_compute | split; [by vm_compute|]]].
  - intros load_annotations super_resolver.
    split; [|split; [|split; [|split]]].
    + intros infos label_weight. apply training_guard.
    + intros ann_file label_weight. rewrite partition_init_training_None.
      split.
      * destruct (load_annotations ann_file) as [infos|e]; by eexists.
      * by intros infos ->.
    + apply composite_init_training_None.
    + intros infos label_weight. apply evaluation_guard.
    + intros ann_file label_weight infos idxs weight Hload Hresolved.
      unfold _S3DISSegDataset_init. rewrite Hload.
      change (Ok infos ≫= ?k) with (k infos). cbn beta.
      rewrite evaluation_guard, Hresolved. reflexivity.
  - eexists. split; [by vm_compute | reflexivity].
Qed.

Lemma training_requires_scene_idxs_witness :
  exists e,
    S3DISSegDataset_init other_load_annotations example_resolver
      (bare_config false) 7%nat
    = (7%nat, Raise e).
Proof.
  apply (proj1 (proj2 (proj2 (proj1 training_requires_scene_idxs
                                other_load_annotations example_resolver))));
    reflexivity.
Defined.

(** ** Two constructions of one configuration *)

(** The outcome of a construction step, the counter of partition datasets
    set aside. *)
Lemma outcome_bind {A B} (m1 m2 : Build A) (k1 k2 : A -> Build B) b1 b2 :
  snd (m1 b1) = snd (m2 b2) ->
  (forall a c1 c2, snd (m2 b2) = Ok a -> snd (k1 a c1) = snd (k2 a c2)) ->
  snd ((m1 ≫= k1) b1) = snd ((m2 ≫= k2) b2).
Proof.
  unfold mbind, Build_bind.
  destruct (m1 b1) as [n1 r1], (m2 b2) as [n2 r2]. cbn. intros -> Hk.
  destruct r2 as [a|e]; [by apply Hk | done].
Qed.

Section TwoConstructions.
Variables load1 load2 : pyval -> result (list SceneRecord).
Variables super1 super2 :
  bool -> list SceneRecord -> pyval -> pyval ->
  result (list Z * list spec_float).

Lemma build_datasets_alike ann_files idxs weights test_mode range :
  (forall i ann_file one_scene_idxs one_label_weight,
      i ∈ range ->
      getitem ann_files i = Ok ann_file ->
      getitem idxs i = Ok one_scene_idxs ->
      getitem weights i = Ok one_label_weight ->
      _S3DISSegDataset_init load1 super1 ann_file test_mode
        one_scene_idxs one_label_weight
      = _S3DISSegDataset_init load2 super2 ann_file test_mode
          one_scene_idxs one_label_weight) ->
  forall b1 b2,
    snd (build_datasets load1 super1 ann_files idxs weights test_mode
           range b1)
    = snd (build_datasets load2 super2 ann_files idxs weights test_mode
             range b2).
Proof.
  induction range as [|i range IH]; intros Halike b1 b2; [done|].
  cbn [build_datasets].
  apply outcome_bind; [reflexivity|]. intros ann_file c1 c2 Hann.
  apply outcome_bind; [reflexivity|]. intros one_scene_idxs c3 c4 Hidxs.
  apply outcome_bind; [reflexivity|]. intros one_label_weight c5 c6 Hweight.
  apply outcome_bind.
  - unfold started. cbn [snd].
    apply (Halike i); [apply list_elem_of_here | done..].
  - intros dst c7 c8 _. apply outcome_bind; [|reflexivity].
    apply IH. intros j ????. apply Halike. by apply list_elem_of_further.
Qed.

Lemma construction_alike cfg built1 built2 :
  resolves_alike (_S3DISSegDataset_init load1 super1)
    (_S3DISSegDataset_init load2 super2) cfg ->
  snd (S3DISSegDataset_init load1 super1 cfg built1)
  = snd (S3DISSegDataset_init load2 super2 cfg built2).
Proof.
  intros Halike. unfold S3DISSegDataset_init. cbn zeta.
  apply outcome_bind; [reflexivity|]. intros num c1 c2 Hnum.
  apply outcome_bind; [reflexivity|]. intros idxs c3 c4 Hidxs.
  apply outcome_bind; [reflexivity|]. intros weights c5 c6 Hweights.
  specialize (Halike num idxs weights Hnum Hidxs Hweights).
  apply outcome_bind; [reflexivity|]. intros ann_file0 c7 c8 Hann0.
  apply outcome_bind; [reflexivity|]. intros scene_idxs0 c9 c10 Hidxs0.
  apply outcome_bind; [reflexivity|]. intros label_weight0 c11 c12 Hweight0.
  apply outcome_bind; [by apply (Halike 0%nat)|]. intros _ c13 c14 _.
  apply outcome_bind.
  - apply build_datasets_alike. intros i ???? Hann Hi Hw.
    by apply (Halike i).
  - intros datasets c15 c16 _.
    apply outcome_bind; [reflexivity|]. intros merged_idxs c17 c18 _.
    apply outcome_bind; [reflexivity|]. intros merged_weight c19 c20 _.
    reflexivity.
Qed.

End TwoConstructions.

Lemma partition_init_same_store load1 load2 super_resolver
    ann_file test_mode scene_idxs label_weight :
  load1 ann_file = load2 ann_file ->
  _S3DISSegDataset_init load1 super_resolver ann_file test_mode
    scene_idxs label_weight
  = _S3DISSegDataset_init load2 super_resolver ann_file test_mode
      scene_idxs label_weight.
Proof. unfold _S3DISSegDataset_init. by intros ->. Qed.

(** C9.  Constructing the composite twice from one configuration gives the
    same outcome, the same merged scene records, sampling index and label
    weights or the same exception: whatever the two runs see of the world
    outside (the metadata store, the resolution of sources), the outcome is
    the same as soon as the partitions named by the configuration resolve
    alike, and it does not depend on how many partition datasets were built
    before.  The three merges are functions of the partitions' data. *)
Theorem construction_deterministic :
  forall (load1 load2 : pyval -> result (list SceneRecord))
         (super1 super2 : bool -> list SceneRecord -> pyval -> pyval ->
                          result (list Z * list spec_float))
         cfg built1 built2,
    resolves_alike (_S3DISSegDataset_init load1 super1)
      (_S3DISSegDataset_init load2 super2) cfg ->
    snd (S3DISSegDataset_init load1 super1 cfg built1)
    = snd (S3DISSegDataset_init load2 super2 cfg built2).
Proof. exact construction_alike. Qed.

Lemma construction_deterministic_witness :
  snd (S3DISSegDataset_init example_load_annotations example_resolver
         (mismatched_config false) 0%nat)
  = snd (S3DISSegDataset_init other_load_annotations example_resolver
           (mismatched_config false) 5%nat).
Proof.
  apply construction_deterministic.
  intros num idxs weights _ _ _ i ann_file one_scene_idxs one_label_weight
    Hann _ _.
  apply partition_init_same_store.
  destruct i as [|[|i]]; cbn in Hann; [| |done];
    injection Hann as <-; reflexivity.
Defined.

(** * Further properties of the merge *)

(** ** The merged index as shifted blocks *)

Lemma shifted_length offset part : length (shifted offset part) = length part.
Proof. unfold shifted. by rewrite length_fmap. Qed.

Lemma shifted_blocks_length (offsets : list Z) (parts : list (list Z)) :
  length offsets = length parts ->
  length (concat (zip_with shifted offsets parts))
  = sum_list (length <$> parts).
Proof.
  revert offsets. induction parts as [|part parts IH];
    intros [|offset offsets] Hlen; try done.
  cbn. rewrite length_app, shifted_length, IH; [done|].
  cbn in Hlen. lia.
Qed.

Lemma in_int32_shifted offset part : Forall Np.in_int32 (shifted offset part).
Proof.
  unfold shifted. apply Forall_fmap, Forall_forall. intros v _.
  apply astype_int32_range.
Qed.

(** The loop appends, for each partition in turn, the partition shifted by
    the offset of that iteration. *)
Lemma concat_scene_idxs_loop_blocks parts acc offset merged :
  Forall Np.in_int32 acc ->
  concat_scene_idxs_loop parts acc offset = Ok merged ->
  exists offsets,
    length offsets = length parts
    /\ (parts <> [] -> offsets !! 0%nat = Some offset)
    /\ merged = acc ++ concat (zip_with shifted offsets parts).
Proof.
  revert acc offset. induction parts as [|part parts IH];
    intros acc offset Hacc.
  - cbn. intros [= <-]. exists []. by rewrite app_nil_r.
  - rewrite concat_scene_idxs_loop_cons. cbn zeta.
    rewrite (astype_int32_fmap_id acc Hacc).
    fold (shifted offset part).
    destruct (Np.max _) as [m|e]; [|done]. cbn. intros Hloop.
    apply IH in Hloop as (offsets & Hlen & _ & ->).
    + exists (offset :: offsets). cbn. rewrite Hlen.
      split; [done|]. split; [done|]. by rewrite <- app_assoc.
    + apply Forall_app. split; [done | apply in_int32_shifted].
Qed.

(** X1.  Whenever [concat_scene_idxs] returns, the merged index is the
    partitions' sampling indices in order, every value of partition [k]
    shifted by one offset of that partition (0 for the first) and cast to
    [int32]; so it has as many entries as the partitions' indices together,
    and equal local values stay equal. *)
Theorem merged_index_is_shifted_blocks (parts : list (list Z)) merged :
  concat_scene_idxs parts = Ok merged ->
  exists offsets,
    length offsets = length parts
    /\ (parts <> [] -> offsets !! 0%nat = Some 0)
    /\ merged = concat (zip_with shifted offsets parts)
    /\ length merged = sum_list (length <$> parts).
Proof.
  intros Hmerged.
  apply concat_scene_idxs_loop_blocks in Hmerged
    as (offsets & Hlen & Hfirst & ->); [|constructor].
  exists offsets. repeat split; [done | done |].
  by apply shifted_blocks_length.
Qed.

Lemma merged_index_is_shifted_blocks_witness :
  exists offsets,
    length offsets = 3%nat
    /\ ([[1; 1]; []; [0; 5]] <> [] -> offsets !! 0%nat = Some 0)
    /\ [1; 1; 2; 7] = concat (zip_with shifted offsets [[1; 1]; []; [0; 5]])
    /\ length [1; 1; 2; 7] = 4%nat.
Proof.
  apply (merged_index_is_shifted_blocks [[1; 1]; []; [0; 5]] [1; 1; 2; 7]).
  reflexivity.
Defined.

(** ** Partitions keep apart in the merged index *)

Lemma is_max_lt_succ m (l : list Z) :
  is_max m l -> Forall (fun v => v < m + 1) l.
Proof.
  intros [_ Hle]. eapply Forall_impl; [exact Hle | cbn; lia].
Qed.

(** With valid local indices and scenes that fit [int32], every block is
    its partition shifted without any wrap-around, it lies above everything
    merged before, and the blocks ascend. *)
Lemma concat_scene_idxs_loop_separated datasets acc offset seen merged :
  Forall locally_valid datasets ->
  Forall (fun v => 0 <= v < offset) acc ->
  0 <= offset <= seen ->
  seen + Z.of_nat (merged_scene_count datasets) <= 2 ^ 31 ->
  concat_scene_idxs_loop (scene_idxs <$> datasets) acc
    (Np.astype_int32 offset) = Ok merged ->
  exists blocks,
    merged = acc ++ concat blocks
    /\ Forall2 (fun dst block =>
                  exists o, block = (fun v => v + o) <$> scene_idxs dst)
         datasets blocks
    /\ Forall (Forall (fun y => Forall (fun x => x < y) acc)) blocks
    /\ blocks_ascending blocks.
Proof.
  intros Hvalid. revert acc offset seen.
  induction Hvalid as [|dst datasets Hdst _ IH];
    intros acc offset seen Hacc Hoff Hfit.
  - cbn. intros [= <-]. exists []. rewrite app_nil_r.
    repeat split; constructor.
  - rewrite merged_scene_count_cons, Nat2Z.inj_add in Hfit.
    rewrite fmap_cons, concat_scene_idxs_loop_cons. cbn zeta.
    rewrite astype_int32_fmap_id;
      [|eapply Forall_impl; [exact Hacc | unfold Np.in_int32; cbn; lia]].
    rewrite (shift_valid_no_cast (scene_count dst)); [|done|lia|lia].
    set (block := (fun v => v + offset) <$> scene_idxs dst).
    assert (Hblock : Forall (fun y => offset <= y
                                       < offset + Z.of_nat (scene_count dst))
                       block).
    { apply Forall_fmap. eapply Forall_impl; [exact Hdst | cbn; lia]. }
    destruct (Np.max (acc ++ block)) as [m|e] eqn:Hmax; [|done]. cbn.
    apply np_max_Ok in Hmax. pose proof (is_max_lt_succ _ _ Hmax) as Hlt.
    assert (Hnonneg : Forall (fun v => 0 <= v) (acc ++ block)).
    { apply Forall_app. split.
      - eapply Forall_impl; [exact Hacc | cbn; lia].
      - eapply Forall_impl; [exact Hblock | cbn; lia]. }
    assert (Hm : 0 <= m < seen + Z.of_nat (scene_count dst)).
    { destruct Hmax as [Hin _]. rewrite Forall_forall in Hnonneg.
      split; [by apply Hnonneg|].
      apply elem_of_app in Hin as [Hin | Hin].
      - rewrite Forall_forall in Hacc. specialize (Hacc _ Hin). lia.
      - rewrite Forall_forall in Hblock. specialize (Hblock _ Hin). lia. }
    intros Hloop.
    apply (IH _ _ (seen + Z.of_nat (scene_count dst))) in Hloop
      as (blocks & -> & Hshift & Habove & Hasc); [| |lia|lia].
    + exists (block :: blocks). split; [by rewrite <- app_assoc|].
      split; [constructor; [by exists offset | done]|].
      split; [|split].
      * constructor.
        -- eapply Forall_impl; [exact Hblock|]. cbn. intros y Hy.
           eapply Forall_impl; [exact Hacc | cbn; lia].
        -- eapply Forall_impl; [exact Habove|]. cbn. intros later Hlater.
           eapply Forall_impl; [exact Hlater|]. cbn. intros y Hy.
           by apply Forall_app in Hy as [? _].
      * rewrite Forall_forall. intros later Hin.
        rewrite Forall_forall in Habove. specialize (Habove _ Hin).
        rewrite Forall_forall. intros x Hx.
        eapply Forall_impl; [exact Habove|]. cbn. intros y Hy.
        apply Forall_app in Hy as [_ Hy].
        rewrite Forall_forall in Hy. by apply Hy.
      * exact Hasc.
    + apply Forall_and. split; [exact Hnonneg | exact Hlt].
Qed.

(** X2.  With valid local sampling indices and a merged scene count that
    fits [int32], the merged index is made of one block per partition, the
    partition's index with one offset added to every value (no wrap-around),
    and every value of a block is below every value of each later block: no
    merged scene position is referred to by two partitions. *)
Theorem merged_index_blocks_ascend (datasets : list Partition) merged :
  Forall locally_valid datasets ->
  Z.of_nat (merged_scene_count datasets) <= 2 ^ 31 ->
  concat_scene_idxs (scene_idxs <$> datasets) = Ok merged ->
  exists blocks,
    merged = concat blocks
    /\ Forall2 (fun dst block =>
                  exists o, block = (fun v => v + o) <$> scene_idxs dst)
         datasets blocks
    /\ blocks_ascending blocks.
Proof.
  intros Hvalid Hfit Hmerged.
  destruct (concat_scene_idxs_loop_separated datasets [] 0 0 merged)
    as (blocks & -> & Hshift & _ & Hasc);
    [done | constructor | lia | lia | exact Hmerged |].
  by exists blocks.
Qed.

Lemma merged_index_blocks_ascend_witness :
  exists blocks,
    [0; 0; 1; 2; 3; 3] = concat blocks
    /\ Forall2 (fun dst block =>
                  exists o, block = (fun v => v + o) <$> scene_idxs dst)
         [area_a_undersampled; area_b] blocks
    /\ blocks_ascending blocks.
Proof.
  apply (merged_index_blocks_ascend [area_a_undersampled; area_b]);
    [repeat constructor; cbn; lia | cbn; lia | reflexivity].
Defined.

(** ** One visit per scene *)

Lemma arange_app (a b : nat) :
  arange (a + b) = arange a ++ ((fun v => v + Z.of_nat a) <$> arange b).
Proof.
  unfold arange. rewrite seq_app, fmap_app. f_equal.
  replace (seq (0 + a) b) with (Nat.add a <$> seq 0 b)
    by (rewrite fmap_add_seq; f_equal; lia).
  rewrite <- !list_fmap_compose.
  apply list_fmap_ext. intros _ j _. cbn. lia.
Qed.

Lemma arange_valid (n : nat) : valid_scene_idxs n (arange n).
Proof.
  unfold valid_scene_idxs, arange. apply Forall_fmap, Forall_forall.
  intros j Hj%elem_of_seq. cbn. lia.
Qed.

Lemma arange_is_max (n : nat) :
  (1 <= n)%nat -> is_max (Z.of_nat n - 1) (arange n).
Proof.
  intros Hn. split.
  - unfold arange. apply list_elem_of_fmap. exists (n - 1)%nat.
    split; [lia | apply elem_of_seq; lia].
  - eapply Forall_impl; [apply arange_valid | cbn; lia].
Qed.

Lemma concat_scene_idxs_loop_arange (counts : list nat) count seen :
  (1 <= seen + count)%nat ->
  Z.of_nat (seen + count + sum_list counts) <= 2 ^ 31 ->
  concat_scene_idxs_loop (arange <$> count :: counts) (arange seen)
    (Np.astype_int32 (Z.of_nat seen))
  = Ok (arange (seen + count + sum_list counts)).
Proof.
  revert count seen.
  induction counts as [|count' counts IH]; intros count seen Hpos Hfit;
    rewrite fmap_cons, concat_scene_idxs_loop_cons; cbn zeta;
    (rewrite astype_int32_fmap_id;
       [|eapply Forall_impl; [apply arange_valid
                             | unfold Np.in_int32; cbn in *; lia]]);
    (rewrite (shift_valid_no_cast count);
       [|apply arange_valid | lia | cbn in Hfit; lia]);
    rewrite <- arange_app;
    rewrite (proj2 (np_max_Ok _ _) (arange_is_max (seen + count) Hpos));
    cbn [mbind result_bind].
  - cbn. by rewrite Nat.add_0_r.
  - replace (Z.of_nat (seen + count) - 1 + 1) with (Z.of_nat (seen + count))
      by lia.
    rewrite (IH count' (seen + count)%nat); [|lia|cbn in Hfit; lia].
    f_equal. f_equal. cbn. lia.
Qed.

(** X3.  Sampling indices that visit every scene of their partition once, in
    order ([arange(count)], what evaluation uses), merge to the index that
    visits every merged scene once, in order, as long as the first partition
    has a scene and the merged scene count fits [int32]; later partitions may
    be empty. *)
Theorem concat_scene_idxs_arange (count : nat) (counts : list nat) :
  (1 <= count)%nat ->
  Z.of_nat (count + sum_list counts) <= 2 ^ 31 ->
  concat_scene_idxs (arange <$> count :: counts)
  = Ok (arange (count + sum_list counts)).
Proof.
  intros Hpos Hfit.
  exact (concat_scene_idxs_loop_arange counts count 0 Hpos Hfit).
Qed.

Lemma concat_scene_idxs_arange_witness :
  concat_scene_idxs (arange <$> [2; 0; 3]%nat) = Ok (arange 5).
Proof.
  apply (concat_scene_idxs_arange 2 [0; 3]%nat); [lia | cbn; lia].
Defined.

(** ** A sampling index that stops short of the last scene *)

Lemma no_shift_no_cast count (idxs : list Z) :
  valid_scene_idxs count idxs ->
  Z.of_nat count <= 2 ^ 31 ->
  (fun v => Np.astype_int32 (v + 0)) <$> idxs = idxs.
Proof.
  intros Hvalid Hfit. rewrite <- (list_fmap_id idxs) at 2.
  apply Forall_fmap_ext. eapply Forall_impl; [exact Hvalid|].
  cbn. intros v Hv. rewrite Z.add_0_r. apply astype_int32_id.
  unfold Np.in_int32. lia.
Qed.

(** X4.  When the sampling index of the first partition is valid but its
    maximum [m] is not the last scene, the values of the second partition are
    shifted by [m + 1] only: a local value [v] of the second partition with
    [v + m + 1] below the first partition's scene count becomes a merged
    value that designates a scene record of the first partition. *)
Theorem undersampled_partition_misdirects
    (dst_a dst_b : Partition) (rest : list Partition) m i v merged :
  locally_valid dst_a ->
  Z.of_nat (scene_count dst_a) <= 2 ^ 31 ->
  Np.max (scene_idxs dst_a) = Ok m ->
  scene_idxs dst_b !! i = Some v ->
  0 <= v ->
  v + m + 1 < Z.of_nat (scene_count dst_a) ->
  concat_scene_idxs (scene_idxs <$> dst_a :: dst_b :: rest) = Ok merged ->
  merged !! (length (scene_idxs dst_a) + i)%nat = Some (v + m + 1)
  /\ exists record,
       concat_data_infos (data_infos <$> dst_a :: dst_b :: rest)
         !! Z.to_nat (v + m + 1) = Some record
       /\ data_infos dst_a !! Z.to_nat (v + m + 1) = Some record.
Proof.
  intros Hvalid Hfit Hmax Hv Hnonneg Hshort. unfold concat_scene_idxs.
  rewrite !fmap_cons, concat_scene_idxs_loop_cons. cbn zeta.
  rewrite fmap_nil, app_nil_l.
  rewrite (no_shift_no_cast (scene_count dst_a)) by done.
  rewrite Hmax. cbn [mbind result_bind].
  assert (Hm : 0 <= m).
  { apply np_max_Ok in Hmax as [Hin _].
    unfold locally_valid, valid_scene_idxs in Hvalid.
    rewrite Forall_forall in Hvalid. specialize (Hvalid _ Hin). lia. }
  rewrite concat_scene_idxs_loop_cons. cbn zeta.
  set (acc := _ ++ _).
  destruct (Np.max acc) as [m'|e]; [|done]. cbn [mbind result_bind].
  intros Hloop. subst acc.
  apply concat_scene_idxs_loop_blocks in Hloop as (offsets & _ & _ & ->).
  - split.
    + rewrite lookup_app_l.
      2: { rewrite length_app, !length_fmap.
           apply lookup_lt_Some in Hv. lia. }
      rewrite lookup_app_r; rewrite length_fmap; [|lia].
      replace (length (scene_idxs dst_a) + i - length (scene_idxs dst_a))%nat
        with i by lia.
      rewrite list_lookup_fmap, Hv. cbn. f_equal.
      rewrite astype_int32_add_cast. replace (v + (m + 1)) with (v + m + 1)
        by lia.
      apply astype_int32_id. unfold Np.in_int32. lia.
    + destruct (lookup_lt_is_Some_2 (data_infos dst_a) (Z.to_nat (v + m + 1)))
        as [record Hrecord]; [unfold scene_count in Hshort; lia|].
      exists record. split; [|done].
      rewrite concat_data_infos_cons.
      rewrite lookup_app_l; [done|]. by eapply lookup_lt_Some.
  - apply Forall_app. split; apply Forall_fmap, Forall_forall;
      intros; apply astype_int32_range.
Qed.

Lemma undersampled_partition_misdirects_witness :
  [0; 0; 1; 2; 3; 3] !! 3%nat = Some 2
  /\ exists record,
       concat_data_infos (data_infos <$> [area_a_undersampled; area_b])
         !! 2%nat = Some record
       /\ data_infos area_a_undersampled !! 2%nat = Some record.
Proof.
  apply (undersampled_partition_misdirects area_a_undersampled area_b []
           1 0%nat 0 [0; 0; 1; 2; 3; 3]);
    [repeat constructor; cbn; lia | cbn; lia | reflexivity | reflexivity
    | lia | cbn; lia | reflexivity].
Defined.

(** * Further properties of the normalization and the construction *)


(** ** What a finished construction consists of *)

Lemma len_check_ann_files ann_file :
  exists num, len (_check_ann_files ann_file) = Ok num.
Proof.
  unfold _check_ann_files.
  destruct ann_file; cbn; eexists; reflexivity.
Qed.

Section ConstructionShape.
Variable load_annotations : pyval -> result (list SceneRecord).
Variable super_resolver :
  bool -> list SceneRecord -> pyval -> pyval ->
  result (list Z * list spec_float).

Lemma build_datasets_shape ann_files idxs weights test_mode range :
  forall built built' outcome,
    build_datasets load_annotations super_resolver ann_files idxs weights
      test_mode range built = (built', outcome) ->
    (built <= built' <= built + length range)%nat
    /\ forall datasets,
         outcome = Ok datasets ->
         built' = (built + length range)%nat
         /\ Forall2 (built_from
                       (_S3DISSegDataset_init load_annotations super_resolver)
                       ann_files idxs weights test_mode)
              range datasets.
Proof.
  induction range as [|i range IH]; intros built built' outcome.
  - cbn. intros [= <- <-]. split; [lia|]. intros datasets [= <-].
    split; [lia | constructor].
  - cbn [build_datasets]. rewrite bind_lift.
    destruct (getitem ann_files i) as [ann_file|e] eqn:Hann;
      [|intros [= <- <-]; split; [cbn; lia | done]].
    rewrite bind_lift.
    destruct (getitem idxs i) as [one_scene_idxs|e] eqn:Hidxs;
      [|intros [= <- <-]; split; [cbn; lia | done]].
    rewrite bind_lift.
    destruct (getitem weights i) as [one_label_weight|e] eqn:Hweight;
      [|intros [= <- <-]; split; [cbn; lia | done]].
    unfold mbind at 1, Build_bind at 1, started.
    destruct (_S3DISSegDataset_init _ _ _ _ _ _) as [dst|e] eqn:Hdst;
      [|intros [= <- <-]; split; [cbn; lia | done]].
    unfold mbind, Build_bind.
    destruct (build_datasets _ _ _ _ _ _ _ (S built)) as [built1 outcome1]
      eqn:Hrest.
    apply IH in Hrest as [Hcount Hrest].
    destruct outcome1 as [datasets|e].
    + cbn. intros [= <- <-]. split; [cbn; lia|].
      intros datasets' [= <-]. destruct (Hrest datasets eq_refl) as [-> Hall].
      split; [cbn; lia|]. constructor; [|done].
      by exists ann_file, one_scene_idxs, one_label_weight.
    + intros [= <- <-]. split; [cbn; lia | done].
Qed.

End ConstructionShape.

Lemma S3DISSegDataset_init_shape :
  forall (load_annotations : pyval -> result (list SceneRecord))
         (super_resolver : bool -> list SceneRecord -> pyval -> pyval ->
                           result (list Z * list spec_float))
         cfg built built' outcome,
    S3DISSegDataset_init load_annotations super_resolver cfg built
    = (built', outcome) ->
    exists num,
      len (_check_ann_files (cfg_ann_files cfg)) = Ok num
      /\ (built <= built' <= built + num)%nat
      /\ forall composite,
           outcome = Ok composite ->
           (1 <= num)%nat
           /\ built' = (built + num)%nat
           /\ exists idxs weights datasets,
                _check_scene_idxs (cfg_scene_idxs cfg) num = Ok idxs
                /\ _check_label_weights (cfg_label_weights cfg) num
                   = Ok weights
                /\ Forall2 (built_from
                              (_S3DISSegDataset_init load_annotations
                                 super_resolver)
                              (_check_ann_files (cfg_ann_files cfg))
                              idxs weights (cfg_test_mode cfg))
                     (seq 0 num) datasets
                /\ self_data_infos composite
                   = concat_data_infos (data_infos <$> datasets)
                /\ concat_scene_idxs (scene_idxs <$> datasets)
                   = Ok (self_scene_idxs composite)
                /\ concat_label_weight (label_weight <$> datasets)
                   = Ok (self_label_weight composite)
                /\ self_test_mode composite = cfg_test_mode cfg.
Proof.
  intros load_annotations super_resolver cfg built built' outcome Hinit.
  destruct (len_check_ann_files (cfg_ann_files cfg)) as [num Hnum].
  exists num. split; [exact Hnum|]. revert Hinit.
  unfold S3DISSegDataset_init. cbn zeta. rewrite bind_lift, Hnum.
  rewrite bind_lift.
  destruct (_check_scene_idxs _ _) as [idxs|e] eqn:Hidxs;
    [|intros [= <- <-]; split; [lia | done]].
  rewrite bind_lift.
  destruct (_check_label_weights _ _) as [weights|e] eqn:Hweights;
    [|intros [= <- <-]; split; [lia | done]].
  rewrite bind_lift.
  destruct (getitem _ 0) as [ann_file0|e] eqn:Hann0;
    [|intros [= <- <-]; split; [lia | done]].
  assert (Hpos : (1 <= num)%nat).
  { destruct (_check_ann_files (cfg_ann_files cfg)) as [|s|z|f|xs|xs|xs];
      try done; cbn in Hnum, Hann0; injection Hnum as <-.
    - destruct s; cbn in *; [done | lia].
    - destruct xs; cbn in *; [done | lia].
    - destruct xs; cbn in *; [done | lia].
    - destruct xs; cbn in *; [done | lia]. }
  rewrite bind_lift.
  destruct (getitem idxs 0) as [scene_idxs0|e];
    [|intros [= <- <-]; split; [lia | done]].
  rewrite bind_lift.
  destruct (getitem weights 0) as [label_weight0|e];
    [|intros [= <- <-]; split; [lia | done]].
  rewrite bind_lift.
  destruct (_S3DISSegDataset_init _ _ ann_file0 _ _ _) as [self0|e];
    [|intros [= <- <-]; split; [lia | done]].
  unfold mbind at 1, Build_bind at 1.
  destruct (build_datasets _ _ _ _ _ _ _ built) as [built1 outcome1]
    eqn:Hbuild.
  apply build_datasets_shape in Hbuild as [Hcount Hbuild].
  rewrite length_seq in Hcount.
  destruct outcome1 as [datasets|e];
    [|intros [= <- <-]; split; [lia | done]].
  destruct (Hbuild datasets eq_refl) as [-> Hall]. rewrite length_seq.
  rewrite bind_lift.
  destruct (concat_scene_idxs _) as [merged_idxs|e] eqn:Hmerged;
    [|intros [= <- <-]; split; [lia | done]].
  rewrite bind_lift.
  destruct (concat_label_weight _) as [merged_weight|e] eqn:Hweight;
    [|intros [= <- <-]; split; [lia | done]].
  intros [= <- <-]. split; [lia|].
  intros composite [= <-]. split; [done|]. split; [done|].
  exists idxs, weights, datasets. by repeat split.
Qed.

(** X6.  A construction of the composite over [N] annotation files starts
    at most [N] partition datasets.  When it returns, [N] is at least 1,
    exactly [N] partition datasets were built, the one at position [i] from
    entry [i] of each normalized input, and the composite holds the
    concatenation of their scene records, the merge of their sampling
    indices and the mean of their label weights. *)
Theorem construction_shape :
  forall (load_annotations : pyval -> result (list SceneRecord))
         (super_resolver : bool -> list SceneRecord -> pyval -> pyval ->
                           result (list Z * list spec_float))
         cfg built built' outcome,
    S3DISSegDataset_init load_annotations super_resolver cfg built
    = (built', outcome) ->
    exists num,
      len (_check_ann_files (cfg_ann_files cfg)) = Ok num
      /\ (built <= built' <= built + num)%nat
      /\ forall composite,
           outcome = Ok composite ->
           (1 <= num)%nat
           /\ built' = (built + num)%nat
           /\ exists idxs weights datasets,
                _check_scene_idxs (cfg_scene_idxs cfg) num = Ok idxs
                /\ _check_label_weights (cfg_label_weights cfg) num
                   = Ok weights
                /\ Forall2 (built_from
                              (_S3DISSegDataset_init load_annotations
                                 super_resolver)
                              (_check_ann_files (cfg_ann_files cfg))
                              idxs weights (cfg_test_mode cfg))
                     (seq 0 num) datasets
                /\ self_data_infos composite
                   = concat_data_infos (data_infos <$> datasets)
                /\ concat_scene_idxs (scene_idxs <$> datasets)
                   = Ok (self_scene_idxs composite)
                /\ concat_label_weight (label_weight <$> datasets)
                   = Ok (self_label_weight composite)
                /\ self_test_mode composite = cfg_test_mode cfg.
Proof. exact S3DISSegDataset_init_shape. Qed.

Lemma construction_shape_witness :
  exists num,
    len (_check_ann_files (cfg_ann_files (bare_config true))) = Ok num
    /\ (3 <= 5 <= 3 + num)%nat
    /\ forall composite,
         snd (S3DISSegDataset_init example_load_annotations example_resolver
                (bare_config true) 3%nat) = Ok composite ->
         (1 <= num)%nat
         /\ 5%nat = (3 + num)%nat
         /\ exists idxs weights datasets,
              _check_scene_idxs (cfg_scene_idxs (bare_config true)) num
              = Ok idxs
              /\ _check_label_weights (cfg_label_weights (bare_config true))
                   num = Ok weights
              /\ Forall2 (built_from
                            (_S3DISSegDataset_init example_load_annotations
                               example_resolver)
                            (_check_ann_files
                               (cfg_ann_files (bare_config true)))
                            idxs weights (cfg_test_mode (bare_config true)))
                   (seq 0 num) datasets
              /\ self_data_infos composite
                 = concat_data_infos (data_infos <$> datasets)
              /\ concat_scene_idxs (scene_idxs <$> datasets)
                 = Ok (self_scene_idxs composite)
              /\ concat_label_weight (label_weight <$> datasets)
                 = Ok (self_label_weight composite)
              /\ self_test_mode composite = cfg_test_mode (bare_config true).
Proof.
  apply (construction_shape example_load_annotations example_resolver
           (bare_config true) 3%nat 5%nat).
  by vm_compute.
Defined.

(** * Annotation lookup *)

Lemma list_getitem_nat {A} (l : list A) (i : nat) :
  list_getitem l (Z.of_nat i)
  = match l !! i with
    | Some x => Ok x
    | None => Raise IndexError
    end.
Proof.
  unfold list_getitem. cbn zeta.
  destruct (Z.ltb_spec (Z.of_nat i) 0); [lia|].
  destruct (Z.leb_spec 0 (Z.of_nat i)); [|lia]. cbn.
  destruct (Z.ltb_spec (Z.of_nat i) (Z.of_nat (length l))).
  - by rewrite Nat2Z.id.
  - rewrite lookup_ge_None_2; [done | lia].
Qed.

Lemma list_getitem_Ok_iff {A} (l : list A) (index : Z) :
  is_Ok (list_getitem l index)
  <-> - Z.of_nat (length l) <= index < Z.of_nat (length l).
Proof.
  unfold list_getitem. cbn zeta.
  destruct (Z.ltb_spec index 0).
  - destruct (Z.leb_spec 0 (index + Z.of_nat (length l))); cbn.
    + destruct (Z.ltb_spec (index + Z.of_nat (length l))
                  (Z.of_nat (length l))); [|lia].
      destruct (lookup_lt_is_Some_2 l
                  (Z.to_nat (index + Z.of_nat (length l)))) as [x ->]; [lia|].
      split; [lia | by eexists].
    + split; [intros [? ?]; done | lia].
  - destruct (Z.leb_spec 0 index); [|lia]. cbn.
    destruct (Z.ltb_spec index (Z.of_nat (length l))).
    + destruct (lookup_lt_is_Some_2 l (Z.to_nat index)) as [x ->]; [lia|].
      split; [lia | by eexists].
    + split; [intros [? ?]; done | lia].
Qed.

Lemma list_getitem_negative {A} (l : list A) (index : Z) :
  - Z.of_nat (length l) <= index < 0 ->
  list_getitem l index = list_getitem l (index + Z.of_nat (length l)).
Proof.
  intros Hindex. unfold list_getitem. cbn zeta.
  destruct (Z.ltb_spec index 0); [|lia].
  destruct (Z.ltb_spec (index + Z.of_nat (length l)) 0); [lia|]. done.
Qed.

Lemma list_getitem_raises {A} (l : list A) (index : Z) e :
  list_getitem l index = Raise e -> e = IndexError.
Proof.
  unfold list_getitem. cbn zeta.
  destruct (_ && _); [destruct (l !! _)|]; congruence.
Qed.

(** X7.  [get_ann_info] accepts exactly the indices of a Python list,
    [-len(data_infos) <= index < len(data_infos)], and raises [IndexError]
    for every other; a negative index counts from the end, so [-1] is the
    last scene; the result holds the data root joined with the scene's
    semantic-mask path. *)
Theorem get_ann_info_index_range :
  forall (osp_join : string -> string -> string) (data_root : string)
         (self_infos : list SceneRecord) (index : Z),
    (is_Ok (get_ann_info osp_join data_root self_infos index)
     <-> - Z.of_nat (length self_infos) <= index
         < Z.of_nat (length self_infos))
    /\ (forall e,
           get_ann_info osp_join data_root self_infos index = Raise e ->
           e = IndexError)
    /\ (- Z.of_nat (length self_infos) <= index < 0 ->
        get_ann_info osp_join data_root self_infos index
        = get_ann_info osp_join data_root self_infos
            (index + Z.of_nat (length self_infos)))
    /\ (forall (i : nat) info,
           self_infos !! i = Some info ->
           get_ann_info osp_join data_root self_infos (Z.of_nat i)
           = Ok {| anns_pts_semantic_mask_path :=
                     osp_join data_root (pts_semantic_mask_path info) |}).
Proof.
  intros osp_join data_root self_infos index. unfold get_ann_info.
  split; [|split; [|split]].
  - rewrite <- list_getitem_Ok_iff.
    destruct (list_getitem self_infos index) as [info|e]; cbn.
    + split; intros _; by eexists.
    + split; intros [? ?]; done.
  - intros e.
    destruct (list_getitem self_infos index) as [info|e'] eqn:Hget;
      [done|]. cbn. intros [= <-]. by eapply list_getitem_raises.
  - intros Hindex. by rewrite list_getitem_negative.
  - intros i info Hi. by rewrite list_getitem_nat, Hi.
Qed.

(** X8.  Looking an annotation up in the merged scene records at a position
    of partition [k]'s range gives what partition [k] gives at the position
    minus the start of that range, for one data root. *)
Theorem get_ann_info_merged :
  forall (osp_join : string -> string -> string) (data_root : string)
         (data_infos : list (list SceneRecord)) (k : nat)
         (one_data_infos : list SceneRecord) (j : nat),
    data_infos !! k = Some one_data_infos ->
    (j < length one_data_infos)%nat ->
    get_ann_info osp_join data_root (concat_data_infos data_infos)
      (Z.of_nat (range_start (length <$> data_infos) k + j))
    = get_ann_info osp_join data_root one_data_infos (Z.of_nat j)
    /\ is_Ok (get_ann_info osp_join data_root one_data_infos (Z.of_nat j)).
Proof.
  intros osp_join data_root data_infos k one_data_infos j Hk Hj.
  unfold get_ann_info. rewrite !list_getitem_nat.
  rewrite (concat_data_infos_lookup data_infos k one_data_infos) by (done || lia).
  replace (range_start (length <$> data_infos) k + j
           - range_start (length <$> data_infos) k)%nat with j by lia.
  split; [done|].
  destruct (lookup_lt_is_Some_2 one_data_infos j Hj) as [info ->].
  by eexists.
Qed.

Lemma get_ann_info_merged_witness :
  get_ann_info String.append "data/s3dis/"
    (concat_data_infos [data_infos area_a; data_infos area_b]) 4
  = get_ann_info String.append "data/s3dis/" (data_infos area_b) 1
  /\ is_Ok (get_ann_info String.append "data/s3dis/" (data_infos area_b) 1).
Proof.
  apply (get_ann_info_merged String.append "data/s3dis/"
           [data_infos area_a; data_infos area_b] 1%nat (data_infos area_b)
           1%nat); [reflexivity | cbn; lia].
Defined.

(** * Visualization *)

Section ShowFacts.
Context {Points Mask Prediction Pipeline Palette : Type}.
Variable _get_pipeline : option Pipeline -> result Pipeline.
Variable _extract_data : nat -> Pipeline -> result (Points * Mask).
Variable semantic_mask : Prediction -> result Mask.
Variable show_seg_result : Rendering Points Mask Palette -> result unit.
Variable self_infos : list SceneRecord.
Variable self_palette : Palette.
Variable self_ignore_index : Z.

Abbreviation the_loop :=
  (show_loop _extract_data semantic_mask show_seg_result self_infos
     self_palette self_ignore_index).
Abbreviation the_show :=
  (show _get_pipeline _extract_data semantic_mask show_seg_result self_infos
     self_palette self_ignore_index).



End ShowFacts.


Section ShowCompletes.
Context {Points Mask Prediction Pipeline Palette : Type}.
Variable _get_pipeline : option Pipeline -> result Pipeline.
Variable _extract_data : nat -> Pipeline -> result (Points * Mask).
Variable semantic_mask : Prediction -> result Mask.
Variable show_seg_result : Rendering Points Mask Palette -> result unit.
Variable self_infos : list SceneRecord.
Variable self_palette : Palette.
Variable self_ignore_index : Z.

Hypothesis pipeline_ok : forall pipeline, is_Ok (_get_pipeline pipeline).
Hypothesis data_ok : forall i pipeline, is_Ok (_extract_data i pipeline).
Hypothesis mask_ok : forall result, is_Ok (semantic_mask result).
Hypothesis renderer_ok : forall call, show_seg_result call = Ok ().

Lemma show_loop_completes pipeline out_dir flag results :
  forall i calls outcome,
    (i <= length self_infos)%nat ->
    show_loop _extract_data semantic_mask show_seg_result self_infos
      self_palette self_ignore_index pipeline out_dir flag i results
    = (calls, outcome) ->
    length calls = (length results `min` (length self_infos - i))%nat
    /\ outcome = if decide (length results <= length self_infos - i)%nat
                 then Ok () else Raise IndexError.
Proof.
  induction results as [|result results IH]; intros i calls outcome Hi.
  - cbn. intros [= <- <-]. split; [done|]. by rewrite decide_True by lia.
  - cbn [show_loop]. rewrite list_getitem_nat.
    destruct (self_infos !! i) as [info|] eqn:Hinfo; cbn [mbind result_bind].
    + apply lookup_lt_Some in Hinfo as Hlt.
      destruct (data_ok i pipeline) as [[points gt_sem_mask] ->].
      destruct (mask_ok result) as [pred_sem_mask ->].
      cbn [mbind result_bind]. rewrite renderer_ok. cbn [mbind result_bind].
      destruct (show_loop _ _ _ _ _ _ _ _ _ (S i) results)
        as [calls' outcome'] eqn:Hrest.
      intros [= <- <-]. apply IH in Hrest as [Hlen ->]; [|lia].
      split; [cbn [length]; lia|].
      cbn [length]. destruct (decide (length results <= _)%nat),
        (decide (S (length results) <= _)%nat); try done; lia.
    + apply lookup_ge_None in Hinfo.
      intros [= <- <-]. split; [cbn [length]; lia|].
      rewrite decide_False; [done | cbn [length]; lia].
Qed.

(** X10.  When the collaborators succeed, [show] renders one output per
    result and returns if there are at most as many results as scenes;
    with more results it renders every scene once and then raises the
    [IndexError] of the missing scene. *)
Theorem show_stops_at_last_scene
    (results : list Prediction) (out_dir : string) (flag : bool)
    (pipeline : option Pipeline) calls outcome :
  show _get_pipeline _extract_data semantic_mask show_seg_result self_infos
    self_palette self_ignore_index results (Some out_dir) flag pipeline
  = (calls, outcome) ->
  length calls = (length results `min` length self_infos)%nat
  /\ outcome = if decide (length results <= length self_infos)%nat
               then None else Some (Raised IndexError).
Proof.
  unfold show. destruct (pipeline_ok pipeline) as [pipeline' ->].
  destruct (show_loop _ _ _ _ _ _ _ _ _ 0 results)
    as [calls' outcome'] eqn:Hloop.
  intros [= <- <-].
  apply show_loop_completes in Hloop as [Hlen ->]; [|lia].
  rewrite Nat.sub_0_r in *. split; [done|].
  by destruct (decide _).
Qed.

End ShowCompletes.

Lemma show_stops_at_last_scene_witness :
  length (fst (show (fun _ : option unit => Ok ())
                 (fun _ _ => Ok ((), [0; 1])) (fun pred : list Z => Ok pred)
                 (fun _ : Rendering unit (list Z) unit => Ok ())
                 (data_infos area_b) () 13
                 [[1; 1]; [0; 1]; [0; 0]] (Some "out") true None))
  = 2%nat
  /\ snd (show (fun _ : option unit => Ok ())
            (fun _ _ => Ok ((), [0; 1])) (fun pred : list Z => Ok pred)
            (fun _ : Rendering unit (list Z) unit => Ok ())
            (data_infos area_b) () 13
            [[1; 1]; [0; 1]; [0; 0]] (Some "out") true None)
     = Some (Raised IndexError).
Proof.
  apply (show_stops_at_last_scene (fun _ : option unit => Ok ())
           (fun _ _ => Ok ((), [0; 1])) (fun pred : list Z => Ok pred)
           (fun _ => Ok ()) (data_infos area_b) () 13
           ltac:(intros; by eexists) ltac:(intros; by eexists)
           ltac:(intros; by eexists) ltac:(done)
           [[1; 1]; [0; 1]; [0; 0]] "out" true None).
  reflexivity.
Defined.

(** ** The file name of a rendering *)

Lemma has_char_append c s1 s2 :
  has_char c (String.append s1 s2) = has_char c s1 || has_char c s2.
Proof.
  unfold has_char. induction s1 as [|c1 s1 IH]; [done|].
  change (String.append (String c1 s1) s2)
    with (String c1 (String.append s1 s2)).
  cbn [list_ascii_of_string existsb].
  by rewrite IH, orb_assoc.
Qed.

Lemma has_char_String c c' s :
  has_char c (String c' s) = Ascii.eqb c c' || has_char c s.
Proof. reflexivity. Qed.

Lemma split_tail_no_slash s :
  has_char "/" s = false -> split_tail s = s.
Proof.
  destruct s as [|c s]; [done|]. rewrite has_char_String.
  intros [Hc Hs]%orb_false_elim. rewrite Ascii.eqb_sym in Hc.
  cbn [split_tail]. by rewrite Hc, Hs.
Qed.

Lemma split_tail_append dir name :
  has_char "/" name = false ->
  split_tail (String.append dir (String "/" name)) = name.
Proof.
  intros Hname. induction dir as [|c dir IH].
  - change (split_tail (String "/" name) = name). cbn [split_tail].
    rewrite Ascii.eqb_refl. cbn [orb]. by apply split_tail_no_slash.
  - change (split_tail (String c (String.append dir (String "/" name)))
            = name).
    cbn [split_tail]. rewrite has_char_append, has_char_String.
    rewrite Ascii.eqb_refl. cbn [orb]. rewrite !orb_true_r. exact IH.
Qed.

Lemma split_tail_has_no_slash s : has_char "/" (split_tail s) = false.
Proof.
  induction s as [|c s IH]; [done|]. cbn [split_tail].
  destruct (Ascii.eqb c "/") eqn:Hc; cbn [orb]; [done|].
  destruct (has_char "/" s) eqn:Hs; [done|].
  by rewrite has_char_String, Ascii.eqb_sym, Hc, Hs.
Qed.

Lemma split_dot_first_append stem ext :
  has_char "." stem = false ->
  split_dot_first (String.append stem (String "." ext)) = stem.
Proof.
  induction stem as [|c stem IH].
  - intros _. change (split_dot_first (String "." ext) = EmptyString).
    cbn [split_dot_first]. by rewrite Ascii.eqb_refl.
  - change (String.append (String c stem) (String "." ext))
      with (String c (String.append stem (String "." ext))).
    rewrite has_char_String. intros [Hc Hstem]%orb_false_elim.
    rewrite Ascii.eqb_sym in Hc. cbn [split_dot_first].
    by rewrite Hc, IH.
Qed.

Lemma split_dot_first_no_dot s :
  has_char "." s = false -> split_dot_first s = s.
Proof.
  induction s as [|c s IH]; [done|]. rewrite has_char_String.
  intros [Hc Hs]%orb_false_elim. rewrite Ascii.eqb_sym in Hc.
  cbn [split_dot_first]. by rewrite Hc, IH.
Qed.

Lemma split_dot_first_has_no_dot s : has_char "." (split_dot_first s) = false.
Proof.
  induction s as [|c s IH]; [done|]. cbn [split_dot_first].
  destruct (Ascii.eqb c ".") eqn:Hc; [done|].
  by rewrite has_char_String, Ascii.eqb_sym, Hc, IH.
Qed.

Lemma split_dot_first_keeps_absent c s :
  has_char c s = false -> has_char c (split_dot_first s) = false.
Proof.
  induction s as [|c' s IH]; [done|]. rewrite has_char_String.
  intros [Hc Hs]%orb_false_elim. cbn [split_dot_first].
  destruct (Ascii.eqb c' "."); [done|].
  by rewrite has_char_String, Hc, IH.
Qed.

(** X11.  The file name under which a scene is rendered holds neither ['/']
    nor ['.']: it is the part of the point file's path after the last ['/']
    and before the first ['.'] that follows.  So a path
    [dir/stem.ext] gives [stem] whatever [dir] and [ext] are, and scenes
    whose point files differ in directory or extension only are rendered
    under one name. *)
Theorem file_name_is_stem :
  (forall pts_path,
      has_char "/" (file_name_of pts_path) = false
      /\ has_char "." (file_name_of pts_path) = false)
  /\ (forall dir stem ext,
         has_char "/" stem = false ->
         has_char "." stem = false ->
         has_char "/" ext = false ->
         file_name_of
           (String.append dir
              (String "/" (String.append stem (String "." ext))))
         = stem)
  /\ (forall stem,
         has_char "/" stem = false ->
         has_char "." stem = false ->
         file_name_of stem = stem).
Proof.
  unfold file_name_of. split; [|split].
  - intros pts_path. split.
    + apply split_dot_first_keeps_absent, split_tail_has_no_slash.
    + apply split_dot_first_has_no_dot.
  - intros dir stem ext Hslash Hdot Hext.
    rewrite split_tail_append.
    + by apply split_dot_first_append.
    + by rewrite has_char_append, Hslash, has_char_String, Hext.
  - intros stem Hslash Hdot.
    rewrite split_tail_no_slash by done. by apply split_dot_first_no_dot.
Qed.

Lemma file_name_is_stem_witness :
  file_name_of "data/s3dis/points/Area_1_office_1.bin" = "Area_1_office_1"
  /\ file_name_of "other/Area_1_office_1.npy.gz" = "Area_1_office_1".
Proof.
  split.
  - apply (proj1 (proj2 file_name_is_stem)
             "data/s3dis/points" "Area_1_office_1" "bin"); reflexivity.
  - apply (proj1 (proj2 file_name_is_stem)
             "other" "Area_1_office_1" "npy.gz"); reflexivity.
Defined.

(** * A composite built for training *)

(** X12.  A composite that was constructed in training mode has a
    sampling-index source for every one of its partitions: no entry [i < N]
    of the normalized [scene_idxs] is [None], be it the shared source or an
    entry of an explicit collection. *)
Theorem training_composite_has_all_sources :
  forall (load_annotations : pyval -> result (list SceneRecord))
         (super_resolver : bool -> list SceneRecord -> pyval -> pyval ->
                           result (list Z * list spec_float))
         cfg built built' composite,
    cfg_test_mode cfg = false ->
    S3DISSegDataset_init load_annotations super_resolver cfg built
    = (built', Ok composite) ->
    exists num idxs,
      len (_check_ann_files (cfg_ann_files cfg)) = Ok num
      /\ _check_scene_idxs (cfg_scene_idxs cfg) num = Ok idxs
      /\ forall i,
           (i < num)%nat ->
           exists one_scene_idxs,
             getitem idxs i = Ok one_scene_idxs
             /\ is_None one_scene_idxs = false.
Proof.
  intros load_annotations super_resolver cfg built built' composite
    Hmode Hinit.
  apply S3DISSegDataset_init_shape in Hinit as (num & Hnum & _ & Hshape).
  destruct (Hshape composite eq_refl)
    as (_ & _ & idxs & weights & datasets & Hidxs & _ & Hbuilt & _).
  exists num, idxs. split; [done|]. split; [done|]. intros i Hi.
  destruct (Forall2_lookup_l _ _ _ i i Hbuilt) as (dst & _ & Hdst).
  { by apply lookup_seq_lt. }
  destruct Hdst as (ann_file & one_scene_idxs & one_label_weight
                    & _ & Hget & _ & Hpartition).
  exists one_scene_idxs. split; [done|].
  destruct one_scene_idxs; try done.
  rewrite Hmode, partition_init_training_None in Hpartition.
  by destruct (load_annotations ann_file).
Qed.

Lemma training_composite_has_all_sources_witness :
  exists num idxs,
    len (_check_ann_files (cfg_ann_files (mismatched_config false))) = Ok num
    /\ _check_scene_idxs (cfg_scene_idxs (mismatched_config false)) num
       = Ok idxs
    /\ forall i,
         (i < num)%nat ->
         exists one_scene_idxs,
           getitem idxs i = Ok one_scene_idxs
           /\ is_None one_scene_idxs = false.
Proof.
  eapply (training_composite_has_all_sources example_load_annotations
            example_resolver (mismatched_config false) 0%nat);
    [reflexivity | by vm_compute].
Defined.

(** * Indices that reach the last scene *)

Lemma running_sum_merge_lookup (parts : list (nat * list Z)) offset
    k count part i v :
  parts !! k = Some (count, part) ->
  part !! i = Some v ->
  running_sum_merge parts offset
    !! (range_start ((fun p => length p.2) <$> parts) k + i)%nat
  = Some (offset + Z.of_nat (range_start (fst <$> parts) k) + v).
Proof.
  revert offset k. induction parts as [|[count0 part0] parts IH];
    intros offset k Hk Hi; [done|].
  cbn [running_sum_merge]. destruct k as [|k].
  - injection Hk as -> ->. rewrite !range_start_0.
    rewrite lookup_app_l; [|rewrite length_map; by eapply lookup_lt_Some].
    cbn. rewrite list_lookup_fmap, Hi. cbn. f_equal. lia.
  - cbn in Hk. rewrite !fmap_cons, !range_start_cons. cbn [fst snd].
    rewrite lookup_app_r; rewrite length_map; [|lia].
    replace (length part0 + range_start ((fun p => length p.2) <$> parts) k
             + i - length part0)%nat
      with (range_start ((fun p => length p.2) <$> parts) k + i)%nat by lia.
    rewrite (IH _ k Hk Hi). f_equal. lia.
Qed.

(** With valid indices that reach the last scene of their partitions, the
    loop extends the merged index as the running scene count would. *)
Lemma concat_scene_idxs_loop_running_sum datasets acc seen :
  Forall locally_valid datasets ->
  Forall reaches_last_scene datasets ->
  Forall (fun v => 0 <= v < seen) acc ->
  0 <= seen ->
  seen + Z.of_nat (merged_scene_count datasets) <= 2 ^ 31 ->
  concat_scene_idxs_loop (scene_idxs <$> datasets) acc
    (Np.astype_int32 seen)
  = Ok (acc ++ running_sum_merge
                 ((fun dst => (scene_count dst, scene_idxs dst))
                    <$> datasets) seen).
Proof.
  intros Hvalid. revert acc seen.
  induction Hvalid as [|dst datasets Hdst _ IH];
    intros acc seen [Hlast Hlasts]%Forall_cons_1 Hacc Hseen Hfit
    || intros acc seen _ Hacc Hseen Hfit.
  - cbn. by rewrite app_nil_r.
  - rewrite merged_scene_count_cons, Nat2Z.inj_add in Hfit.
    rewrite !fmap_cons, concat_scene_idxs_loop_cons. cbn zeta.
    rewrite astype_int32_fmap_id;
      [|eapply Forall_impl; [exact Hacc | unfold Np.in_int32; cbn; lia]].
    rewrite (shift_valid_no_cast (scene_count dst)); [|done|done|lia].
    set (block := (fun v => v + seen) <$> scene_idxs dst).
    assert (Hblock : Forall (fun v => 0 <= v
                                       < seen + Z.of_nat (scene_count dst))
                       (acc ++ block)).
    { apply Forall_app. split.
      - eapply Forall_impl; [exact Hacc | cbn; lia].
      - apply Forall_fmap. eapply Forall_impl; [exact Hdst | cbn; lia]. }
    assert (Hmax : is_max (seen + Z.of_nat (scene_count dst) - 1)
                     (acc ++ block)).
    { split.
      - apply elem_of_app. right. apply list_elem_of_fmap.
        exists (Z.of_nat (scene_count dst) - 1). split; [lia | exact Hlast].
      - eapply Forall_impl; [exact Hblock | cbn; lia]. }
    rewrite (proj2 (np_max_Ok _ _) Hmax). cbn [mbind result_bind].
    replace (seen + Z.of_nat (scene_count dst) - 1 + 1)
      with (seen + Z.of_nat (scene_count dst)) by lia.
    rewrite IH; [|done|done|lia|lia].
    cbn [running_sum_merge]. rewrite <- app_assoc. do 3 f_equal.
    apply list_fmap_ext. intros _ v _. lia.
Qed.

(** X13.  When every local sampling index is valid and reaches the last
    scene of its partition, and the merged scene count fits [int32], the
    offset rule of the loop and the running scene count agree: the merged
    index is each partition's index shifted by the number of scenes of the
    partitions before it. *)
Theorem merged_index_is_running_sum (datasets : list Partition) :
  Forall locally_valid datasets ->
  Forall reaches_last_scene datasets ->
  Z.of_nat (merged_scene_count datasets) <= 2 ^ 31 ->
  concat_scene_idxs (scene_idxs <$> datasets)
  = Ok (running_sum_merge
          ((fun dst => (scene_count dst, scene_idxs dst)) <$> datasets) 0).
Proof.
  intros Hvalid Hlast Hfit.
  exact (concat_scene_idxs_loop_running_sum datasets [] 0 Hvalid Hlast
           (Forall_nil_2 _) (Z.le_refl 0) Hfit).
Qed.

Lemma merged_index_is_running_sum_witness :
  concat_scene_idxs (scene_idxs <$> [area_a; area_b])
  = Ok [0; 0; 1; 2; 3; 4; 4].
Proof.
  apply (merged_index_is_running_sum [area_a; area_b]).
  - repeat constructor; cbn; lia.
  - apply Forall_cons. split; [|apply Forall_cons; split; [|constructor]];
      unfold reaches_last_scene; cbn.
    + do 3 apply list_elem_of_further. apply list_elem_of_here.
    + apply list_elem_of_further, list_elem_of_here.
  - cbn. lia.
Defined.

(** X14.  Under the same conditions a sample drawn through the merged index
    is the scene it was in its partition: entry [i] of partition [k]'s
    sampling index, of local value [v], sits in the merged index at the
    start of partition [k]'s block plus [i], its merged value is [v] plus
    the start of partition [k]'s scene range, and the merged scene record at
    that value is partition [k]'s scene record [v]. *)
Theorem remapped_sample_is_same_scene
    (datasets : list Partition) merged k dst i v :
  Forall locally_valid datasets ->
  Forall reaches_last_scene datasets ->
  Z.of_nat (merged_scene_count datasets) <= 2 ^ 31 ->
  concat_scene_idxs (scene_idxs <$> datasets) = Ok merged ->
  datasets !! k = Some dst ->
  scene_idxs dst !! i = Some v ->
  exists record,
    merged !! (range_start ((fun d => length (scene_idxs d)) <$> datasets) k
               + i)%nat
    = Some (Z.of_nat (range_start (scene_count <$> datasets) k) + v)
    /\ concat_data_infos (data_infos <$> datasets)
         !! Z.to_nat (Z.of_nat (range_start (scene_count <$> datasets) k) + v)
       = Some record
    /\ data_infos dst !! Z.to_nat v = Some record.
Proof.
  intros Hvalid Hlast Hfit Hmerged Hk Hi.
  assert (Hrun : concat_scene_idxs (scene_idxs <$> datasets)
                 = Ok (running_sum_merge
                         ((fun d => (scene_count d, scene_idxs d))
                            <$> datasets) 0))
    by exact (concat_scene_idxs_loop_running_sum datasets [] 0 Hvalid Hlast
                (Forall_nil_2 _) (Z.le_refl 0) Hfit).
  rewrite Hrun in Hmerged. injection Hmerged as <-.
  assert (Hv : 0 <= v < Z.of_nat (scene_count dst)).
  { rewrite Forall_forall in Hvalid.
    pose proof (Hvalid dst (list_elem_of_lookup_2 _ _ _ Hk)) as Hdst.
    unfold locally_valid, valid_scene_idxs in Hdst.
    rewrite Forall_forall in Hdst.
    exact (Hdst v (list_elem_of_lookup_2 _ _ _ Hi)). }
  destruct (lookup_lt_is_Some_2 (data_infos dst) (Z.to_nat v))
    as [record Hrecord]; [unfold scene_count in Hv; lia|].
  exists record. split; [|split; [|done]].
  - cbn [app].
    pose proof (running_sum_merge_lookup
                  ((fun d => (scene_count d, scene_idxs d)) <$> datasets)
                  0 k (scene_count dst) (scene_idxs dst) i v) as Hlookup.
    rewrite <- !list_fmap_compose in Hlookup.
    rewrite Z.add_0_l in Hlookup. apply Hlookup; [|done].
    by rewrite list_lookup_fmap, Hk.
  - rewrite (concat_data_infos_lookup (data_infos <$> datasets) k
               (data_infos dst)).
    + rewrite <- list_fmap_compose.
      replace (Z.to_nat (Z.of_nat (range_start (scene_count <$> datasets) k)
                         + v)
               - range_start (length ∘ data_infos <$> datasets) k)%nat
        with (Z.to_nat v); [done|].
      unfold scene_count. change (fun d => length (data_infos d))
        with (length ∘ data_infos). lia.
    + by rewrite list_lookup_fmap, Hk.
    + rewrite <- list_fmap_compose. unfold scene_count in *.
      change (fun d => length (data_infos d)) with (length ∘ data_infos).
      lia.
Qed.

Lemma remapped_sample_is_same_scene_witness :
  exists record,
    [0; 0; 1; 2; 3; 4; 4] !! 5%nat = Some 4
    /\ concat_data_infos (data_infos <$> [area_a; area_b]) !! 4%nat
       = Some record
    /\ data_infos area_b !! 1%nat = Some record.
Proof.
  apply (remapped_sample_is_same_scene [area_a; area_b]
           [0; 0; 1; 2; 3; 4; 4] 1%nat area_b 1%nat 1).
  - repeat constructor; cbn; lia.
  - apply Forall_cons. split; [|apply Forall_cons; split; [|constructor]];
      unfold reaches_last_scene; cbn.
    + do 3 apply list_elem_of_further. apply list_elem_of_here.
    + apply list_elem_of_further, list_elem_of_here.
  - cbn. lia.
  - reflexivity.
  - reflexivity.
  - reflexivity.
Defined.
